(** * Queue Monitor: the RQ and Celery polling alerters

    A shallow embedding of [examples/rq/monitor.py] and
    [examples/celery/monitor.py].  Both scripts poll a Redis-backed job
    queue, compare what they read against fixed thresholds, and send an
    alert unless one was sent for the same key a short while before.

    The scripts read the wall clock, talk to Redis and post to a webhook.
    These three collaborators are answered by an environment [Env] of
    oracles, indexed by how many calls of that kind were made before; the
    mutable instance attribute [self.last_alert] and the call counters are
    threaded through a state-and-exception monad. *)

From stdpp Require Import gmap strings pretty list.

Local Open Scope Z_scope.

(** ** Python values *)

(** The values the status dictionaries hold: [str] and [int]. *)
Inductive value :=
  | VStr (s : string)
  | VInt (n : Z).

#[global] Instance value_eq_dec : EqDecision value.
Proof. solve_decision. Defined.

(** What an f-string replacement field [{v}] renders. *)
Definition py_str (v : value) : string :=
  match v with
  | VStr s => s
  | VInt n => pretty n
  end.

(** A status dictionary, as the literal lists its items.  The checks build
    each dictionary once and never update it, so the items are kept in the
    order of the literal (the order [str] shows them in). *)
Definition dict := list (string * value).

(** [k in d] *)
Definition has_key (k : string) (d : dict) : bool :=
  existsb (fun kv => bool_decide (kv.1 = k)) d.

(** [d.get(k)] *)
Fixpoint dict_get (k : string) (d : dict) : option value :=
  match d with
  | [] => None
  | (k', v) :: d' => if bool_decide (k' = k) then Some v else dict_get k d'
  end.

(** ** Exceptions *)

Inductive exn :=
  | KeyError (k : string)            (* d[k] on a missing key *)
  | RedisError (msg : string)        (* raised by the redis client *)
  | RequestException (msg : string)  (* raised by requests.post *)
  | ValueError (msg : string)        (* time.sleep of a negative length *)
  | OverflowError (msg : string)     (* time.sleep of a length too large *)
  | OSError (msg : string).          (* time.sleep refused by the platform *)

(** [isinstance(e, requests.RequestException)] *)
Definition is_RequestException (e : exn) : bool :=
  match e with RequestException _ => true | _ => false end.

(** [isinstance(e, Exception)]: every exception modelled here. *)
Definition is_Exception (e : exn) : bool := true.

(** ** The environment *)

(** What one Redis call gives: a value, or the client raises. *)
Inductive reply (A : Type) :=
  | Got (a : A)
  | Fails (msg : string).
Arguments Got {A} a.
Arguments Fails {A} msg.

(** What [requests.post] gives: a response with its HTTP status code (no
    code of the scripts looks at it), or it raises [RequestException]
    (connection refused, timeout after 5 seconds, malformed URL). *)
Inductive post_result :=
  | Response (code : Z)
  | PostRaises (msg : string).

(** Times are microseconds since the epoch, the resolution of [datetime]. *)
Record Env := {
  (** the n-th reading of [datetime.utcnow()] *)
  utcnow_at : nat -> Z;
  (** [datetime.isoformat], a library function *)
  isoformat : Z -> string;
  (** [redis.llen(key)], asked as the n-th Redis call *)
  llen_at : nat -> string -> reply Z;
  (** [redis.scard(key)] *)
  scard_at : nat -> string -> reply Z;
  (** [Worker.all(queue=Queue(name), ...)]: the [state] of each worker *)
  worker_all_at : nat -> string -> reply (list string);
  (** [redis.scan_iter(match=pattern)]: the keys the iterator yields and,
      when it breaks off after them, the error it raises *)
  scan_iter_at : nat -> string -> list string * option string;
  (** the n-th [requests.post(url, json={"text": message}, timeout=5)] *)
  post_at : nat -> string -> string -> post_result;
  (** [str(d)] of a dictionary, a builtin: its quoting and escaping of
      strings is Python's and is not spelled out here *)
  str_dict : dict -> string;
  (** what [time.sleep] does with a length that is not negative: nothing
      when it sleeps, else the error it raises ([OverflowError] or
      [OSError] for a length beyond what the platform takes) *)
  sleep_error : Z -> option exn;
}.

(** ** The state *)

(** What the process does to the outside, in order. [Alert] records a call
    of [send_alert] with its argument; the others are the calls of [print],
    [requests.post] and [time.sleep]. *)
Inductive event :=
  | Alert (status : dict)
  | Print (line : string)
  | Post (url message : string)
  | Sleep (seconds : Z).

(** [last_alert] is the instance attribute; [ticks], [reads] and [posts]
    count the clock readings, Redis calls and webhook posts made so far;
    [out] is the trace, newest event first, each event stamped with the
    number of clock readings made before it. *)
Record World := {
  last_alert : gmap string Z;
  ticks : nat;
  reads : nat;
  posts : nat;
  out : list (nat * event);
}.

(** [self.last_alert = {}] and nothing done yet. *)
Definition init_world : World :=
  {| last_alert := ∅; ticks := 0; reads := 0; posts := 0; out := [] |}.

(** ** The monad: state, and exceptions that keep the state *)

Inductive res (A : Type) :=
  | Ret (a : A) (w : World)
  | Raise (e : exn) (w : World).
Arguments Ret {A} a w.
Arguments Raise {A} e w.

Definition M (A : Type) : Type := World -> res A.

Definition world_of {A} (r : res A) : World :=
  match r with Ret _ w => w | Raise _ w => w end.

Definition ret {A} (a : A) : M A := fun w => Ret a w.

Definition bind {A B} (m : M A) (k : A -> M B) : M B :=
  fun w => match m w with
           | Ret a w' => k a w'
           | Raise e w' => Raise e w'
           end.

Definition raise {A} (e : exn) : M A := fun w => Raise e w.

(** The monad operations under stdpp's notations [x ← m; k] and [m ;; k]. *)
#[global] Instance M_ret : MRet M := @ret.
#[global] Instance M_bind : MBind M := fun A B k m => bind m k.

(** [try: body  except <catches> as e: handler e] *)
Definition try_except {A} (body : M A) (catches : exn -> bool)
    (handler : exn -> M A) : M A :=
  fun w => match body w with
           | Ret a w' => Ret a w'
           | Raise e w' => if catches e then handler e w' else Raise e w'
           end.

(** [for x in xs: body x] *)
Fixpoint for_each {A} (xs : list A) (body : A -> M unit) : M unit :=
  match xs with
  | [] => ret tt
  | x :: xs' => body x ;; for_each xs' body
  end.

(** [if c: body] *)
Definition when (c : bool) (body : M unit) : M unit :=
  if c then body else ret tt.

(** ** State updates *)

Definition tick (w : World) : World :=
  {| last_alert := last_alert w; ticks := S (ticks w); reads := reads w;
     posts := posts w; out := out w |}.

Definition count_read (w : World) : World :=
  {| last_alert := last_alert w; ticks := ticks w; reads := S (reads w);
     posts := posts w; out := out w |}.

Definition count_post (w : World) : World :=
  {| last_alert := last_alert w; ticks := ticks w; reads := reads w;
     posts := S (posts w); out := out w |}.

Definition log (ev : event) (w : World) : World :=
  {| last_alert := last_alert w; ticks := ticks w; reads := reads w;
     posts := posts w; out := (ticks w, ev) :: out w |}.

Definition store (key : string) (t : Z) (w : World) : World :=
  {| last_alert := <[key := t]> (last_alert w); ticks := ticks w;
     reads := reads w; posts := posts w; out := out w |}.

(** [timedelta(minutes=n)] *)
Definition timedelta_minutes (n : Z) : Z := n * 60 * 1000000.

(** The configuration attributes set by [__init__]; [alert_webhook] is
    [alert_webhook or os.getenv("QUEUE_MONITOR_WEBHOOK")], which is [None]
    or a string (possibly empty). *)
Record Monitor := {
  alert_webhook : option string;
  queue_depth_threshold : Z;
  check_interval : Z;
}.

(** ** What both scripts do the same way *)

Section Primitives.
Context (E : Env).

(** [d[k]] *)
Definition subscript (d : dict) (k : string) : M value :=
  match dict_get k d with
  | Some v => ret v
  | None => raise (KeyError k)
  end.

(** [datetime.utcnow()] *)
Definition utcnow : M Z :=
  fun w => Ret (utcnow_at E (ticks w)) (tick w).

Definition emit (ev : event) : M unit :=
  fun w => Ret tt (log ev w).

(** [print(line)] *)
Definition print (line : string) : M unit := emit (Print line).

(** [time.sleep(seconds)]: a negative length raises [ValueError], one the
    platform cannot take raises what [sleep_error] says, and nothing has
    been slept then. *)
Definition sleep (seconds : Z) : M unit :=
  if bool_decide (seconds < 0)
  then raise (ValueError "sleep length must be non-negative")
  else match sleep_error E seconds with
       | Some e => raise e
       | None => emit (Sleep seconds)
       end.

(** [self.last_alert.get(key)] *)
Definition last_alert_get (key : string) : M (option Z) :=
  fun w => Ret (last_alert w !! key) w.

(** [self.last_alert[key] = t] *)
Definition last_alert_set (key : string) (t : Z) : M unit :=
  fun w => Ret tt (store key t w).

Definition ask {A} (answer : nat -> reply A) : M A :=
  fun w => match answer (reads w) with
           | Got a => Ret a (count_read w)
           | Fails msg => Raise (RedisError msg) (count_read w)
           end.

(** [self.redis.llen(key)] *)
Definition redis_llen (key : string) : M Z :=
  ask (fun n => llen_at E n key).

(** [self.redis.scard(key)] *)
Definition redis_scard (key : string) : M Z :=
  ask (fun n => scard_at E n key).

(** [Worker.all(queue=Queue(queue_name, ...), ...)], as the list of the
    workers' [state] attributes. *)
Definition Worker_all (queue_name : string) : M (list string) :=
  ask (fun n => worker_all_at E n queue_name).

(** [requests.post(url, json={"text": message}, timeout=5)]; the response
    is dropped by the caller. *)
Definition requests_post (url message : string) : M unit :=
  fun w => match post_at E (posts w) url message with
           | Response _ => Ret tt (count_post (log (Post url message) w))
           | PostRaises msg =>
               Raise (RequestException msg)
                     (count_post (log (Post url message) w))
           end.

(** [f"{e}"] for an exception. *)
Definition exn_str (e : exn) : string :=
  match e with
  | KeyError k => "'" +:+ k +:+ "'"
  | RedisError msg => msg
  | RequestException msg => msg
  | ValueError msg => msg
  | OverflowError msg => msg
  | OSError msg => msg
  end.

(** [not last_alert_time or
     datetime.utcnow() - last_alert_time > timedelta(minutes=n)]:
    [or] reads the clock only when there is a last alert time, and a
    [datetime] is never falsy. *)
Definition alert_is_due (last_alert_time : option Z) (minutes : Z) : M bool :=
  match last_alert_time with
  | None => ret true
  | Some t => now ← utcnow; ret (bool_decide (now - t > timedelta_minutes minutes))
  end.

(** [send_alert], given the script's own [format_alert]. *)
Definition send_alert_with (format_alert : dict -> M string)
    (self : Monitor) (status : dict) : M unit :=
  emit (Alert status);;
  message ← format_alert status;
  print ("[ALERT] " +:+ message);;
  match alert_webhook self with
  | Some url =>
      if bool_decide (url = "") then ret tt
      else
        try_except (requests_post url message) is_RequestException
          (fun e => print ("[ERROR] Failed to send alert: " +:+ exn_str e))
  | None => ret tt
  end.
End Primitives.

(** ** examples/rq/monitor.py *)

Module RQ.
Section QueueMonitor.
Context (E : Env) (self : Monitor).

Definition format_alert (status : dict) : M string :=
  if has_key "depth" status then
    queue ← subscript status "queue";
    depth ← subscript status "depth";
    threshold ← subscript status "threshold";
    ret ("🚨 Queue '" +:+ py_str queue +:+ "' depth: " +:+ py_str depth
           +:+ " (threshold: " +:+ py_str threshold +:+ ")")
  else if has_key "failed_count" status then
    queue ← subscript status "queue";
    failed_count ← subscript status "failed_count";
    ret ("⚠️ Queue '" +:+ py_str queue +:+ "' has " +:+ py_str failed_count
           +:+ " failed jobs")
  else if has_key "workers" status then
    queue ← subscript status "queue";
    ret ("🔴 Queue '" +:+ py_str queue +:+ "' has no active workers!")
  else ret (str_dict E status).

Definition send_alert (status : dict) : M unit :=
  send_alert_with E format_alert self status.

Definition check_queue_depth (queue_name : string) : M dict :=
  let key := "rq:queue:" +:+ queue_name in
  length ← redis_llen E key;
  timestamp ← utcnow E;
  let status :=
    [("queue", VStr queue_name);
     ("depth", VInt length);
     ("threshold", VInt (queue_depth_threshold self));
     ("status", VStr (if bool_decide (length < queue_depth_threshold self)
                      then "ok" else "alert"));
     ("timestamp", VStr (isoformat E timestamp))] in
  st ← subscript status "status";
  when (bool_decide (st = VStr "alert"))
    (last_alert_time ← last_alert_get (queue_name +:+ ":depth");
     due ← alert_is_due E last_alert_time 15;
     when due
       (send_alert status;;
        now ← utcnow E;
        last_alert_set (queue_name +:+ ":depth") now));;
  ret status.

Definition check_failed_jobs (queue_name : string) : M dict :=
  let failed_key := "rq:queue:" +:+ queue_name +:+ ":failed" in
  failed_count ← redis_scard E failed_key;
  timestamp ← utcnow E;
  let status :=
    [("queue", VStr queue_name);
     ("failed_count", VInt failed_count);
     ("status", VStr (if bool_decide (failed_count = 0)
                      then "ok" else "warning"));
     ("timestamp", VStr (isoformat E timestamp))] in
  when (bool_decide (failed_count > 0))
    (last_alert_time ← last_alert_get (queue_name +:+ ":failed");
     due ← alert_is_due E last_alert_time 30;
     when due
       (send_alert status;;
        now ← utcnow E;
        last_alert_set (queue_name +:+ ":failed") now));;
  ret status.

Definition check_workers (queue_name : string) : M dict :=
  workers ← Worker_all E queue_name;
  let alive_workers :=
    List.filter (fun state => negb (bool_decide (state = "stopped"))) workers in
  timestamp ← utcnow E;
  let status :=
    [("queue", VStr queue_name);
     ("workers", VInt (Z.of_nat (length alive_workers)));
     ("status", VStr (if bool_decide (Z.of_nat (length alive_workers) > 0)
                      then "ok" else "critical"));
     ("timestamp", VStr (isoformat E timestamp))] in
  st ← subscript status "status";
  when (bool_decide (st = VStr "critical"))
    (last_alert_time ← last_alert_get (queue_name +:+ ":workers");
     due ← alert_is_due E last_alert_time 5;
     when due
       (send_alert status;;
        now ← utcnow E;
        last_alert_set (queue_name +:+ ":workers") now));;
  ret status.

(** One pass of the [for] loop inside [while True]. *)
Definition cycle (queue_names : list string) : M unit :=
  for_each queue_names (fun queue_name =>
    check_queue_depth queue_name;;
    check_failed_jobs queue_name;;
    check_workers queue_name;;
    ret tt).

(** The first [n] rounds of [while True]; the loop has no exit of its
    own, so a run either is still looping after [n] rounds or has raised. *)
Fixpoint loop (n : nat) (queue_names : list string) : M unit :=
  match n with
  | O => ret tt
  | S n' =>
      cycle queue_names;;
      sleep E (check_interval self);;
      loop n' queue_names
  end.

Definition monitor (n : nat) (queue_names : list string) : M unit :=
  print ("Monitoring queues: " +:+ String.concat ", " queue_names);;
  print ("Depth threshold: " +:+ pretty (queue_depth_threshold self));;
  print ("Check interval: " +:+ pretty (check_interval self) +:+ "s");;
  print "--------------------------------------------------";;
  loop n queue_names.
End QueueMonitor.
End RQ.

(** ** examples/celery/monitor.py *)

Module Celery.
Section CeleryQueueMonitor.
Context (E : Env) (self : Monitor).

(** [self.redis.scan_iter(match=pattern)] run to its end: the keys it
    yields, and the error it then raises, if any. *)
Definition redis_scan_iter (pattern : string) : M (list string * option exn) :=
  fun w =>
    let '(keys, failure) := scan_iter_at E (reads w) pattern in
    Ret (keys, RedisError <$> failure) (count_read w).

(** The end of a [for] loop over an iterator: it raises what the iterator
    raised. *)
Definition end_of_iteration (failure : option exn) : M unit :=
  match failure with
  | Some e => raise e
  | None => ret tt
  end.

(** The encoded [key] is computed and not used: [llen] gets the name. *)
Definition get_queue_length (queue_name : string) : M Z :=
  redis_llen E queue_name.

Definition format_alert (status : dict) : M string :=
  if has_key "depth" status then
    queue ← subscript status "queue";
    depth ← subscript status "depth";
    threshold ← subscript status "threshold";
    ret ("🚨 Queue '" +:+ py_str queue +:+ "' depth: " +:+ py_str depth
           +:+ " (threshold: " +:+ py_str threshold +:+ ")")
  else if has_key "workers" status then
    ret "🔴 No active Celery workers detected!"
  else ret (str_dict E status).

Definition send_alert (status : dict) : M unit :=
  send_alert_with E format_alert self status.

Definition check_queue_depth (queue_name : string) : M dict :=
  length ← get_queue_length queue_name;
  timestamp ← utcnow E;
  let status :=
    [("queue", VStr queue_name);
     ("depth", VInt length);
     ("threshold", VInt (queue_depth_threshold self));
     ("status", VStr (if bool_decide (length < queue_depth_threshold self)
                      then "ok" else "alert"));
     ("timestamp", VStr (isoformat E timestamp))] in
  st ← subscript status "status";
  when (bool_decide (st = VStr "alert"))
    (last_alert_time ← last_alert_get (queue_name +:+ ":depth");
     due ← alert_is_due E last_alert_time 15;
     when due
       (send_alert status;;
        now ← utcnow E;
        last_alert_set (queue_name +:+ ":depth") now));;
  ret status.

(** The loop body is [pass]; an error of the scan is swallowed. *)
Definition check_active_tasks : M dict :=
  let active_count := 0 in
  try_except
    ('(keys, failure) ← redis_scan_iter "celery-task-meta-*";
     for_each keys (fun _ => ret tt);;
     end_of_iteration failure)
    is_Exception (fun _ => ret tt);;
  ret [("active_tasks", VInt active_count); ("status", VStr "ok")].

(** [workers] is a local list the loop appends to: what was appended
    before the scan raised stays in it when the error is swallowed. *)
Definition check_workers : M dict :=
  '(keys, failure) ← redis_scan_iter "celery:*:pidbox:*";
  let workers := fold_left (fun workers key => workers ++ [key]) keys [] in
  try_except (end_of_iteration failure) is_Exception (fun _ => ret tt);;
  timestamp ← utcnow E;
  let status :=
    [("workers", VInt (Z.of_nat (length workers)));
     ("status", VStr (if bool_decide (Z.of_nat (length workers) > 0)
                      then "ok" else "critical"));
     ("timestamp", VStr (isoformat E timestamp))] in
  st ← subscript status "status";
  when (bool_decide (st = VStr "critical"))
    (last_alert_time ← last_alert_get "workers";
     due ← alert_is_due E last_alert_time 5;
     when due
       (send_alert status;;
        now ← utcnow E;
        last_alert_set "workers" now));;
  ret status.

(** One pass of the body of [while True], up to the sleep. *)
Definition cycle (queue_names : list string) : M unit :=
  for_each queue_names (fun queue_name =>
    check_queue_depth queue_name;; ret tt);;
  check_workers;;
  ret tt.

Fixpoint loop (n : nat) (queue_names : list string) : M unit :=
  match n with
  | O => ret tt
  | S n' =>
      cycle queue_names;;
      sleep E (check_interval self);;
      loop n' queue_names
  end.

Definition monitor (n : nat) (queue_names : list string) : M unit :=
  print ("Monitoring Celery queues: " +:+ String.concat ", " queue_names);;
  print ("Depth threshold: " +:+ pretty (queue_depth_threshold self));;
  print ("Check interval: " +:+ pretty (check_interval self) +:+ "s");;
  print "--------------------------------------------------";;
  loop n queue_names.
End CeleryQueueMonitor.
End Celery.

(** ** Vocabulary of the properties *)

(** The block all the checks end with, which the scripts write out in
    each of them: look the key up, decide, send, record. *)
Definition gate (E : Env) (send : dict -> M unit) (key : string)
    (minutes : Z) (status : dict) : M unit :=
  last_alert_time ← last_alert_get key;
  due ← alert_is_due E last_alert_time minutes;
  when due
    (send status;;
     now ← utcnow E;
     last_alert_set key now).

(** The five checks of the two scripts. *)
Inductive check :=
  | RQ_depth (queue_name : string)
  | RQ_failed (queue_name : string)
  | RQ_workers (queue_name : string)
  | Celery_depth (queue_name : string)
  | Celery_workers.

Definition run_check (E : Env) (self : Monitor) (c : check) : M dict :=
  match c with
  | RQ_depth q => RQ.check_queue_depth E self q
  | RQ_failed q => RQ.check_failed_jobs E self q
  | RQ_workers q => RQ.check_workers E self q
  | Celery_depth q => Celery.check_queue_depth E self q
  | Celery_workers => Celery.check_workers E self
  end.

Definition send_of (E : Env) (self : Monitor) (c : check) : dict -> M unit :=
  match c with
  | RQ_depth _ | RQ_failed _ | RQ_workers _ => RQ.send_alert E self
  | Celery_depth _ | Celery_workers => Celery.send_alert E self
  end.

(** The key of [last_alert] a check reads and writes. *)
Definition key_of (c : check) : string :=
  match c with
  | RQ_depth q => q +:+ ":depth"
  | RQ_failed q => q +:+ ":failed"
  | RQ_workers q => q +:+ ":workers"
  | Celery_depth q => q +:+ ":depth"
  | Celery_workers => "workers"
  end.

(** The three classes of metric and their cooldowns. *)
Inductive metric_class := Depth | Failed | Workers.

Definition class_of (c : check) : metric_class :=
  match c with
  | RQ_depth _ | Celery_depth _ => Depth
  | RQ_failed _ => Failed
  | RQ_workers _ | Celery_workers => Workers
  end.

Definition cooldown_minutes (m : metric_class) : Z :=
  match m with Depth => 15 | Failed => 30 | Workers => 5 end.

Definition cooldown (m : metric_class) : Z :=
  timedelta_minutes (cooldown_minutes m).

(** What a check reads from Redis when its call is the [n]-th: the number
    it then compares, or the error of the client.  The Celery worker scan
    swallows the error and counts the keys seen before it. *)
Definition reading (E : Env) (c : check) (n : nat) : reply Z :=
  match c with
  | RQ_depth q => llen_at E n ("rq:queue:" +:+ q)
  | RQ_failed q => scard_at E n ("rq:queue:" +:+ q +:+ ":failed")
  | RQ_workers q =>
      match worker_all_at E n q with
      | Got workers =>
          Got (Z.of_nat (length (List.filter
                 (fun state => negb (bool_decide (state = "stopped"))) workers)))
      | Fails msg => Fails msg
      end
  | Celery_depth q => llen_at E n q
  | Celery_workers =>
      Got (Z.of_nat (length (scan_iter_at E n "celery:*:pidbox:*").1))
  end.

(** The value of ["status"] a check gives to a number read. *)
Definition status_of (self : Monitor) (c : check) (v : Z) : string :=
  match class_of c with
  | Depth => if bool_decide (v < queue_depth_threshold self) then "ok" else "alert"
  | Failed => if bool_decide (v = 0) then "ok" else "warning"
  | Workers => if bool_decide (v > 0) then "ok" else "critical"
  end.

(** Whether a check goes on to the cooldown test. *)
Definition breach (self : Monitor) (c : check) (v : Z) : bool :=
  match class_of c with
  | Depth => negb (bool_decide (v < queue_depth_threshold self))
  | Failed => bool_decide (v > 0)
  | Workers => negb (bool_decide (v > 0))
  end.

(** The status dictionary of a check, from the number read and the clock
    reading of its timestamp. *)
Definition status_dict (E : Env) (self : Monitor) (c : check) (v ts : Z) : dict :=
  let tail := [("status", VStr (status_of self c v));
               ("timestamp", VStr (isoformat E ts))] in
  match c with
  | RQ_depth q | Celery_depth q =>
      ("queue", VStr q) :: ("depth", VInt v)
        :: ("threshold", VInt (queue_depth_threshold self)) :: tail
  | RQ_failed q => ("queue", VStr q) :: ("failed_count", VInt v) :: tail
  | RQ_workers q => ("queue", VStr q) :: ("workers", VInt v) :: tail
  | Celery_workers => ("workers", VInt v) :: tail
  end.

(** The key an alert belongs to, read off the status dictionary handed to
    [send_alert]. *)
Definition alert_class (status : dict) : metric_class :=
  if has_key "depth" status then Depth
  else if has_key "failed_count" status then Failed
  else Workers.

Definition class_suffix (m : metric_class) : string :=
  match m with Depth => "depth" | Failed => "failed" | Workers => "workers" end.

Definition alert_key (status : dict) : string :=
  match dict_get "queue" status with
  | Some q => py_str q +:+ ":" +:+ class_suffix (alert_class status)
  | None => class_suffix (alert_class status)
  end.

Definition is_alert (ev : event) : bool :=
  match ev with Alert _ => true | _ => false end.

(** Events that are no calls of [send_alert]. *)
Definition no_alert (evs : list (nat * event)) : Prop :=
  Forall (fun se => is_alert se.2 = false) evs.

(** The clock never runs backwards between two readings. *)
Definition monotone_clock (E : Env) : Prop :=
  forall i j : nat, (i <= j)%nat -> utcnow_at E i <= utcnow_at E j.

(** The state after [send_alert status] at [w]: the events [evs] on top of
    the call itself, and [n] posts more. *)
Definition sent (status : dict) (evs : list (nat * event)) (n : nat)
    (w : World) : World :=
  {| last_alert := last_alert w; ticks := ticks w; reads := reads w;
     posts := (posts w + n)%nat;
     out := evs ++ (ticks w, Alert status) :: out w |}.

(** The state after the three lines under the cooldown test: the alert is
    sent, the clock is read, the reading is stored under the key. *)
Definition fire (E : Env) (key : string) (status : dict)
    (evs : list (nat * event)) (n : nat) (w : World) : World :=
  store key (utcnow_at E (ticks w)) (tick (sent status evs n w)).

Definition fires (E : Env) (key : string) (status : dict) (w w' : World) : Prop :=
  exists (evs : list (nat * event)) (n : nat),
    no_alert evs /\ Forall (fun se => se.1 = ticks w) evs /\
    w' = fire E key status evs n w.

(** What [gate] does to the state. *)
Definition gate_post (E : Env) (key : string) (minutes : Z) (status : dict)
    (w w' : World) : Prop :=
  match last_alert w !! key with
  | None => fires E key status w w'
  | Some t =>
      if bool_decide (utcnow_at E (ticks w) - t > timedelta_minutes minutes)
      then fires E key status (tick w) w'
      else w' = tick w
  end.

(** A [send_alert] that returns, for this status. *)
Definition sends (send : dict -> M unit) (status : dict) : Prop :=
  forall w, exists (evs : list (nat * event)) (n : nat),
    no_alert evs /\ Forall (fun se => se.1 = ticks w) evs /\
    send status w = Ret tt (sent status evs n w).

(** The test the checks make before sending: the first two lines of the
    gate. *)
Definition should_alert (E : Env) (key : string) (minutes : Z) : M bool :=
  last_alert_time ← last_alert_get key;
  alert_is_due E last_alert_time minutes.

(** What a run gives back, without the state. *)
Definition value_of {A} (r : res A) : A + exn :=
  match r with Ret a _ => inl a | Raise e _ => inr e end.

Definition on_world {A} (f : World -> World) (r : res A) : res A :=
  match r with Ret a w => Ret a (f w) | Raise e w => Raise e (f w) end.

(** The checks of one cycle, in the order the loops make them. *)
Definition rq_checks (queue_names : list string) : list check :=
  flat_map (fun q => [RQ_depth q; RQ_failed q; RQ_workers q]) queue_names.

Definition celery_checks (queue_names : list string) : list check :=
  map Celery_depth queue_names ++ [Celery_workers].

Definition run_all (E : Env) (self : Monitor) (cs : list check) : M unit :=
  for_each cs (fun c => run_check E self c;; ret tt).

(** The last character of a string ([d] for the empty string). *)
Fixpoint last_ascii (s : string) (d : Ascii.ascii) : Ascii.ascii :=
  match s with
  | EmptyString => d
  | String a s' => last_ascii s' a
  end.

(** In a trace (newest first), every alert comes more than its cooldown
    after every older alert of the same key: the last clock reading before
    it is more than the cooldown later than the first reading after the
    older one. *)
Definition alerts_spaced (E : Env) (tr : list (nat * event)) : Prop :=
  forall newer j s2 older i s1,
    tr = newer ++ (j, Alert s2) :: older ->
    (i, Alert s1) ∈ older ->
    alert_key s1 = alert_key s2 ->
    (0 < j)%nat /\
    alert_class s1 = alert_class s2 /\
    utcnow_at E i + cooldown (alert_class s2) < utcnow_at E (j - 1).

(** The same, by recursion on the trace. *)
Fixpoint spaced (E : Env) (tr : list (nat * event)) : Prop :=
  match tr with
  | [] => True
  | (j, ev) :: older =>
      (forall s2, ev = Alert s2 ->
         (0 < j)%nat /\
         forall i s1, (i, Alert s1) ∈ older -> alert_key s1 = alert_key s2 ->
           alert_class s1 = alert_class s2 /\
           utcnow_at E i + cooldown (alert_class s2) < utcnow_at E (j - 1))
      /\ spaced E older
  end.

(** What holds of the state between two checks. *)
Record Inv (E : Env) (self : Monitor) (w : World) : Prop := {
  inv_spaced : spaced E (out w);
  inv_stamps : forall i ev, (i, ev) ∈ out w -> (i <= ticks w)%nat;
  inv_recorded : forall i s, (i, Alert s) ∈ out w ->
    exists t, last_alert w !! alert_key s = Some t /\ utcnow_at E i <= t;
  inv_shape : forall i s, (i, Alert s) ∈ out w ->
    exists c v ts, s = status_dict E self c v ts;
}.

(** Between [w] and [w'] one alert was sent, or none. *)
Definition alerted (w w' : World) : Prop :=
  exists (evs : list (nat * event)) (i : nat) (s : dict),
    no_alert evs /\ out w' = evs ++ (i, Alert s) :: out w.

Definition quiet (w w' : World) : Prop :=
  exists evs : list (nat * event), no_alert evs /\ out w' = evs ++ out w.

(** The [format_alert] of the script a check belongs to. *)
Definition format_of (E : Env) (c : check) : dict -> M string :=
  match c with
  | RQ_depth _ | RQ_failed _ | RQ_workers _ => RQ.format_alert E
  | Celery_depth _ | Celery_workers => Celery.format_alert E
  end.

(** ** Sample environments *)

(** A clock that advances five minutes from one reading to the next, and
    Redis and the webhook answering every call the same way. *)
Definition steady_env (depth failed : reply Z) (workers : reply (list string))
    (scan : list string * option string) (post : post_result) : Env :=
  {| utcnow_at := fun n => Z.of_nat n * 300000000;
     isoformat := fun t => pretty t;
     llen_at := fun _ _ => depth;
     scard_at := fun _ _ => failed;
     worker_all_at := fun _ _ => workers;
     scan_iter_at := fun _ _ => scan;
     post_at := fun _ _ _ => post;
     str_dict := fun d => "{" +:+ pretty (length d) +:+ " items}";
     sleep_error := fun _ => None |}.

(** 600 jobs waiting, no failed job, one idle worker, the webhook answers. *)
Definition backlog_env : Env :=
  steady_env (Got 600) (Got 0) (Got ["idle"]) (["celery:w1:pidbox:1"], None)
    (Response 200).

(** The same, with a webhook that cannot be reached. *)
Definition unreachable_env : Env :=
  steady_env (Got 600) (Got 0) (Got ["idle"]) (["celery:w1:pidbox:1"], None)
    (PostRaises "connection refused").

(** The same, with a webhook that answers 500. *)
Definition http500_env : Env :=
  steady_env (Got 600) (Got 0) (Got ["idle"]) (["celery:w1:pidbox:1"], None)
    (Response 500).

(** Redis is down: every call raises, every scan breaks off at once. *)
Definition redis_down_env : Env :=
  steady_env (Fails "connection lost") (Fails "connection lost")
    (Fails "connection lost") ([], Some "connection lost") (Response 200).

(** Queues are short, three jobs failed, the only worker has stopped. *)
Definition trouble_env : Env :=
  steady_env (Got 500) (Got 3) (Got ["stopped"]) ([], None) (Response 200).

(** The backlog of [backlog_env] under a wall clock that someone sets
    back: it reads 100 minutes for the first five readings, 120 at the
    sixth, and then, set back by half an hour, 90 for four readings and 106
    from then on. *)
Definition set_back_env : Env :=
  {| utcnow_at := fun n =>
       (if bool_decide (n < 5)%nat then 100
        else if bool_decide (n = 5)%nat then 120
        else if bool_decide (n < 10)%nat then 90
        else 106) * 60000000;
     isoformat := fun t => pretty t;
     llen_at := fun _ _ => Got 600;
     scard_at := fun _ _ => Got 0;
     worker_all_at := fun _ _ => Got ["idle"];
     scan_iter_at := fun _ _ => (["celery:w1:pidbox:1"], None);
     post_at := fun _ _ _ => Response 200;
     str_dict := fun d => "{" +:+ pretty (length d) +:+ " items}";
     sleep_error := fun _ => None |}.

Definition console_monitor : Monitor :=
  {| alert_webhook := None; queue_depth_threshold := 500; check_interval := 60 |}.

Definition webhook_monitor : Monitor :=
  {| alert_webhook := Some "http://hooks.example/alert";
     queue_depth_threshold := 500; check_interval := 60 |}.

(** ** The constructor and the script entry *)

(** [a or b] on two optional strings: [a] when it is truthy (a string that
    is not empty), else [b]. *)
Definition py_or (a b : option string) : option string :=
  match a with
  | Some s => if bool_decide (s = "") then b else Some s
  | None => b
  end.

(** [__init__], the same in both classes for what the checks use.
    [getenv] is what [os.getenv("QUEUE_MONITOR_WEBHOOK")] gives;
    [redis.from_url] opens no connection.  The result is the configuration
    and the state with [self.last_alert = {}]. *)
Definition construct (getenv webhook_arg : option string)
    (threshold interval : Z) : Monitor * World :=
  ({| alert_webhook := py_or webhook_arg getenv;
      queue_depth_threshold := threshold;
      check_interval := interval |},
   init_world).

(** [sys.argv[1:] if len(sys.argv) > 1 else ["default", "high", "low"]] *)
Definition argv_queues (argv : list string) : list string :=
  if bool_decide (1 < length argv)%nat then drop 1 argv
  else ["default"; "high"; "low"].

(** The [__main__] block of each script, for the first [n] rounds of the
    loop: no webhook argument, threshold 500, interval 60.  (The keyboard
    interrupt that ends the loop comes from outside and is not part of the
    run.) *)
Definition rq_main (E : Env) (getenv : option string) (argv : list string)
    (n : nat) : res unit :=
  let '(self, w) := construct getenv None 500 60 in
  RQ.monitor E self n (argv_queues argv) w.

Definition celery_main (E : Env) (getenv : option string) (argv : list string)
    (n : nat) : res unit :=
  let '(self, w) := construct getenv None 500 60 in
  Celery.monitor E self n (argv_queues argv) w.

(** ** Vocabulary of the further properties *)

(** The URL [send_alert] posts to: [if self.alert_webhook:] holds. *)
Definition webhook_url (self : Monitor) : option string :=
  match alert_webhook self with
  | Some url => if bool_decide (url = "") then None else Some url
  | None => None
  end.

(** The message of the alert a check sends for the number [v]. *)
Definition message_of (self : Monitor) (c : check) (v : Z) : string :=
  match c with
  | RQ_depth q | Celery_depth q =>
      "🚨 Queue '" +:+ q +:+ "' depth: " +:+ pretty v
        +:+ " (threshold: " +:+ pretty (queue_depth_threshold self) +:+ ")"
  | RQ_failed q => "⚠️ Queue '" +:+ q +:+ "' has " +:+ pretty v +:+ " failed jobs"
  | RQ_workers q => "🔴 Queue '" +:+ q +:+ "' has no active workers!"
  | Celery_workers => "🔴 No active Celery workers detected!"
  end.

(** What [send_alert] does after printing the alert, newest first, when
    [n] posts were made before. *)
Definition delivery (E : Env) (self : Monitor) (message : string) (n : nat)
    : list event :=
  match webhook_url self with
  | None => []
  | Some url =>
      match post_at E n url message with
      | Response _ => [Post url message]
      | PostRaises err =>
          [Print ("[ERROR] Failed to send alert: " +:+ err); Post url message]
      end
  end.

(** All of a call of [send_alert], newest first. *)
Definition alert_events (E : Env) (self : Monitor) (message : string)
    (status : dict) (n : nat) : list event :=
  delivery E self message n ++ [Print ("[ALERT] " +:+ message); Alert status].

Definition stamp (j : nat) (evs : list event) : list (nat * event) :=
  map (pair j) evs.

(** The state after [send_alert status] with message [message]. *)
Definition after_send (E : Env) (self : Monitor) (message : string)
    (status : dict) (w : World) : World :=
  {| last_alert := last_alert w; ticks := ticks w; reads := reads w;
     posts := (posts w + match webhook_url self with Some _ => 1 | None => 0 end)%nat;
     out := stamp (ticks w) (alert_events E self message status (posts w))
              ++ out w |}.

(** The state after a check has sent its alert and stored the time. *)
Definition after_alert (E : Env) (self : Monitor) (c : check) (v ts : Z)
    (w : World) : World :=
  store (key_of c) (utcnow_at E (ticks w))
    (tick (after_send E self (message_of self c v)
             (status_dict E self c v ts) w)).

(** Whether the check that reads [v] in state [w] sends an alert. *)
Definition alerts (E : Env) (self : Monitor) (c : check) (v : Z) (w : World)
    : bool :=
  breach self c v &&
  match last_alert w !! key_of c with
  | None => true
  | Some t => bool_decide (utcnow_at E (S (ticks w)) - t > cooldown (class_of c))
  end.

(** The state after the check that reads [v] in state [w]. *)
Definition after_check (E : Env) (self : Monitor) (c : check) (v : Z)
    (w : World) : World :=
  let ts := utcnow_at E (ticks w) in
  let w1 := tick (count_read w) in
  if alerts E self c v w then
    match last_alert w !! key_of c with
    | None => after_alert E self c v ts w1
    | Some _ => after_alert E self c v ts (tick w1)
    end
  else if breach self c v then tick w1 else w1.

(** The script a check belongs to. *)
Inductive script := RQ_script | Celery_script.

Definition script_of (c : check) : script :=
  match c with
  | RQ_depth _ | RQ_failed _ | RQ_workers _ => RQ_script
  | Celery_depth _ | Celery_workers => Celery_script
  end.

Definition is_sleep (self : Monitor) (ev : event) : bool :=
  match ev with
  | Sleep s => bool_decide (s = check_interval self)
  | _ => false
  end.

Definition is_post (ev : event) : bool :=
  match ev with Post _ _ => true | _ => false end.

(** What holds of the state of a run that makes checks of [cs] only:
    every alert is for a breach that one of them read from Redis, every post goes to
    the configured URL, and every entry of [last_alert] is under the key of
    one of them and is a clock reading made before. *)
Record Sound (E : Env) (self : Monitor) (cs : list check) (w : World) : Prop := {
  sound_alerts : forall i s, (i, Alert s) ∈ out w ->
    exists c v ts n, c ∈ cs /\ s = status_dict E self c v ts /\
                     reading E c n = Got v /\ breach self c v = true;
  sound_posts : forall i url message, (i, Post url message) ∈ out w ->
    webhook_url self = Some url;
  sound_entries : forall k t, last_alert w !! k = Some t ->
    (exists c, c ∈ cs /\ k = key_of c) /\
    (exists i, (i < ticks w)%nat /\ t = utcnow_at E i);
}.

(** Every entry of [w] is still there in [w'], with the same or a later
    time. *)
Definition not_earlier (w w' : World) : Prop :=
  forall k t, last_alert w !! k = Some t ->
    exists t', last_alert w' !! k = Some t' /\ t <= t'.

(** The sleeps of the loop in a trace. *)
Definition sleeps (self : Monitor) (tr : list (nat * event)) : nat :=
  length (List.filter (fun se => is_sleep self se.2) tr).

(** ** Proofs *)

Ltac munfold :=
  unfold mbind, M_bind, mret, M_ret, bind, ret, raise, when in *.

Section Facts.
Context (E : Env) (self : Monitor).

Lemma sleep_cases seconds w :
  sleep E seconds w = Ret tt (log (Sleep seconds) w)
  \/ exists e, sleep E seconds w = Raise e w.
Proof.
  unfold sleep, emit. munfold. case_bool_decide; [by eauto|].
  destruct (sleep_error E seconds); by eauto.
Qed.

Lemma sleep_slept seconds w :
  0 <= seconds -> sleep_error E seconds = None ->
  sleep E seconds w = Ret tt (log (Sleep seconds) w).
Proof.
  intros Hs He. unfold sleep, emit.
  rewrite bool_decide_false by lia. by rewrite He.
Qed.

Lemma send_alert_with_sent (fmt : dict -> M string) status msg w :
  (forall w0, fmt status w0 = Ret msg w0) ->
  exists (evs : list (nat * event)) (n : nat),
    no_alert evs /\ Forall (fun se => se.1 = ticks w) evs /\
    send_alert_with E fmt self status w = Ret tt (sent status evs n w).
Proof.
  intros Hfmt. unfold send_alert_with, emit, print. munfold.
  rewrite Hfmt. cbn [log ticks].
  destruct (alert_webhook self) as [url|].
  - case_bool_decide.
    + exists [(ticks w, Print ("[ALERT] " +:+ msg))], 0%nat.
      split; [|split].
      * repeat constructor.
      * repeat constructor.
      * unfold sent, log. cbn. by rewrite Nat.add_0_r.
    + unfold try_except, requests_post. cbn.
      destruct (post_at E (posts w) url msg) as [code|err]; cbn.
      * exists [(ticks w, Post url msg); (ticks w, Print ("[ALERT] " +:+ msg))], 1%nat.
        split; [|split]; [repeat constructor..|].
        unfold sent, count_post, log. cbn. by rewrite Nat.add_1_r.
      * exists [(ticks w, Print ("[ERROR] Failed to send alert: " +:+ err));
                (ticks w, Post url msg);
                (ticks w, Print ("[ALERT] " +:+ msg))], 1%nat.
        split; [|split]; [repeat constructor..|].
        unfold sent, count_post, log. cbn. by rewrite Nat.add_1_r.
  - exists [(ticks w, Print ("[ALERT] " +:+ msg))], 0%nat.
    split; [|split]; [repeat constructor..|].
    unfold sent, log. cbn. by rewrite Nat.add_0_r.
Qed.

Lemma gate_spec send key minutes status w :
  sends send status ->
  exists w', gate E send key minutes status w = Ret tt w' /\
             gate_post E key minutes status w w'.
Proof.
  intros Hsend. unfold gate, gate_post, last_alert_get, alert_is_due.
  munfold.
  destruct (last_alert w !! key) as [t|]; cbn.
  - case_bool_decide; cbn.
    + destruct (Hsend (tick w)) as (evs & n & Hno & Hst & ->).
      eexists; split; [reflexivity|]. by exists evs, n.
    + eauto.
  - destruct (Hsend w) as (evs & n & Hno & Hst & ->).
    eexists; split; [reflexivity|]. by exists evs, n.
Qed.

Lemma fold_append (keys acc : list string) :
  fold_left (fun workers key => workers ++ [key]) keys acc = acc ++ keys.
Proof.
  revert acc. induction keys as [|k keys IH]; intros acc; cbn.
  - by rewrite app_nil_r.
  - by rewrite IH, <- app_assoc.
Qed.

Lemma sends_status c v ts :
  sends (send_of E self c) (status_dict E self c v ts).
Proof.
  intros w.
  destruct c; cbn [send_of]; unfold RQ.send_alert, Celery.send_alert;
    eapply send_alert_with_sent; intros w0; reflexivity.
Qed.

(** Each check is: one Redis call, one clock reading for the timestamp,
    and the gate when the number read is a breach. *)
Lemma run_check_eq c w :
  run_check E self c w =
  match reading E c (reads w) with
  | Fails msg => Raise (RedisError msg) (count_read w)
  | Got v =>
      let status := status_dict E self c v (utcnow_at E (ticks w)) in
      (when (breach self c v)
         (gate E (send_of E self c) (key_of c)
               (cooldown_minutes (class_of c)) status);;
       ret status) (tick (count_read w))
  end.
Proof.
  destruct c as [q|q|q|q|]; cbn [run_check reading].
  - unfold RQ.check_queue_depth, redis_llen, ask. munfold.
    destruct (llen_at E (reads w) ("rq:queue:" +:+ q)) as [v|msg]; [|done].
    unfold utcnow at 1. cbn -[gate].
    unfold breach, status_of, status_dict, gate; cbn.
    case_bool_decide; cbn; munfold; reflexivity.
  - unfold RQ.check_failed_jobs, redis_scard, ask. munfold.
    destruct (scard_at E (reads w) _) as [v|msg]; [|done].
    unfold utcnow at 1. cbn.
    unfold breach, status_of, status_dict, gate; cbn. munfold. reflexivity.
  - unfold RQ.check_workers, Worker_all, ask. munfold.
    destruct (worker_all_at E (reads w) q) as [ws|msg]; [|done].
    unfold utcnow at 1. cbn.
    unfold breach, status_of, status_dict, gate; cbn.
    case_bool_decide; cbn; munfold; reflexivity.
  - unfold Celery.check_queue_depth, Celery.get_queue_length, redis_llen, ask.
    munfold.
    destruct (llen_at E (reads w) q) as [v|msg]; [|done].
    unfold utcnow at 1. cbn.
    unfold breach, status_of, status_dict, gate; cbn.
    case_bool_decide; cbn; munfold; reflexivity.
  - unfold Celery.check_workers, Celery.redis_scan_iter. munfold.
    destruct (scan_iter_at E (reads w) "celery:*:pidbox:*") as [keys failure].
    rewrite fold_append. cbn [app fst].
    assert (Htry : try_except (Celery.end_of_iteration (RedisError <$> failure))
              is_Exception (fun _ : exn => (fun w0 => Ret tt w0)) (count_read w)
            = Ret tt (count_read w)).
    { unfold try_except, Celery.end_of_iteration. by destruct failure. }
    rewrite Htry. unfold utcnow at 1. cbn.
    unfold breach, status_of, status_dict, gate; cbn.
    case_bool_decide; cbn; munfold; reflexivity.
Qed.

Lemma run_check_fails c w msg :
  reading E c (reads w) = Fails msg ->
  run_check E self c w = Raise (RedisError msg) (count_read w).
Proof. intros H. by rewrite run_check_eq, H. Qed.

Lemma run_check_got c w v :
  reading E c (reads w) = Got v ->
  exists w',
    run_check E self c w
      = Ret (status_dict E self c v (utcnow_at E (ticks w))) w' /\
    if breach self c v
    then gate_post E (key_of c) (cooldown_minutes (class_of c))
           (status_dict E self c v (utcnow_at E (ticks w)))
           (tick (count_read w)) w'
    else w' = tick (count_read w).
Proof.
  intros H. rewrite run_check_eq, H. cbn zeta. munfold.
  destruct (breach self c v).
  - destruct (gate_spec (send_of E self c) (key_of c)
                (cooldown_minutes (class_of c))
                (status_dict E self c v (utcnow_at E (ticks w)))
                (tick (count_read w)) (sends_status c v _))
      as (w' & Hg & Hp).
    rewrite Hg. eauto.
  - eauto.
Qed.

(** *** Keys and classes *)

Lemma alert_key_status c v ts :
  alert_key (status_dict E self c v ts) = key_of c.
Proof. by destruct c. Qed.

Lemma alert_class_status c v ts :
  alert_class (status_dict E self c v ts) = class_of c.
Proof. by destruct c. Qed.

Lemma last_ascii_app s a t d :
  last_ascii (s +:+ String a t) d = last_ascii t a.
Proof. revert d. induction s as [|b s IH]; intros d; cbn; [done|apply IH]. Qed.

Lemma key_of_class c1 c2 : key_of c1 = key_of c2 -> class_of c1 = class_of c2.
Proof.
  intros Hk. apply (f_equal (fun s => last_ascii s Ascii.zero)) in Hk.
  destruct c1, c2; cbn [key_of class_of] in *;
    rewrite ?last_ascii_app in Hk; cbn in Hk; congruence.
Qed.

(** *** The trace *)

Lemma spaced_alerts_spaced tr : spaced E tr -> alerts_spaced E tr.
Proof.
  intros Hsp newer. revert tr Hsp.
  induction newer as [|x newer IH]; intros tr Hsp j s2 older i s1 -> Hin Hk.
  - cbn in Hsp. destruct Hsp as [Hhd _].
    destruct (Hhd s2 eq_refl) as [Hj Hall].
    destruct (Hall i s1 Hin Hk). done.
  - destruct x as [j0 ev0]. cbn in Hsp. destruct Hsp as [_ Hsp].
    by eapply IH.
Qed.

Lemma spaced_app evs tr : no_alert evs -> spaced E tr -> spaced E (evs ++ tr).
Proof.
  induction 1 as [|[j ev] evs Hev _ IH]; intros Hsp; cbn; [done|].
  split; [|by apply IH].
  intros s2 ->. done.
Qed.

Lemma no_alert_not_in evs i s : no_alert evs -> (i, Alert s) ∉ evs.
Proof.
  intros Hno Hin. unfold no_alert in Hno. rewrite Forall_forall in Hno.
  by specialize (Hno _ Hin).
Qed.
End Facts.

(** *** The invariant of the polling loop *)

Section Spacing.
Context (E : Env) (self : Monitor).
Hypothesis clock_monotone : monotone_clock E.

Lemma Inv_init : Inv E self init_world.
Proof.
  split; cbn; [done|..]; intros ? ? Hin; by apply elem_of_nil in Hin.
Qed.

Lemma Inv_tick w : Inv E self w -> Inv E self (tick w).
Proof.
  intros [H1 H2 H3 H4]. split; cbn; [done| |done|done].
  intros i ev Hin. specialize (H2 _ _ Hin). lia.
Qed.

Lemma Inv_count_read w : Inv E self w -> Inv E self (count_read w).
Proof. intros [H1 H2 H3 H4]. by split. Qed.

Lemma Inv_log ev w :
  is_alert ev = false -> Inv E self w -> Inv E self (log ev w).
Proof.
  intros Hev [H1 H2 H3 H4]. split; cbn.
  - split; [|done]. intros s2 ->. done.
  - intros i ev' [Heq|Hin]%elem_of_cons; [by injection Heq as -> _|eauto].
  - intros i s [Heq|Hin]%elem_of_cons; [|eauto].
    injection Heq as _ <-. done.
  - intros i s [Heq|Hin]%elem_of_cons; [|eauto].
    injection Heq as _ <-. done.
Qed.

Lemma Inv_fire c v ts evs n w :
  Inv E self w ->
  (0 < ticks w)%nat ->
  no_alert evs ->
  Forall (fun se => se.1 = ticks w) evs ->
  (forall t, last_alert w !! key_of c = Some t ->
             t + cooldown (class_of c) < utcnow_at E (ticks w - 1)) ->
  Inv E self (fire E (key_of c) (status_dict E self c v ts) evs n w).
Proof.
  intros [H1 H2 H3 H4] Hpos Hno Hst Hcool.
  set (status := status_dict E self c v ts).
  split; cbn.
  - apply spaced_app; [done|]. cbn. split; [|done].
    intros s2 [= <-]. split; [done|].
    intros i s1 Hin Hk.
    unfold status in *. rewrite alert_key_status in Hk.
    rewrite alert_class_status.
    destruct (H3 _ _ Hin) as (t & Ht & Hle).
    destruct (H4 _ _ Hin) as (c1 & v1 & ts1 & ->).
    rewrite alert_key_status in Hk, Ht. rewrite alert_class_status.
    split; [by apply key_of_class|].
    rewrite Hk in Ht. specialize (Hcool _ Ht). lia.
  - intros i ev [Hin|[Heq|Hin]%elem_of_cons]%elem_of_app.
    + rewrite Forall_forall in Hst. specialize (Hst _ Hin). cbn in Hst. lia.
    + injection Heq as -> _. lia.
    + specialize (H2 _ _ Hin). lia.
  - intros i s [Hin|[Heq|Hin]%elem_of_cons]%elem_of_app.
    + by apply no_alert_not_in in Hin.
    + injection Heq as -> ->. unfold status.
      rewrite alert_key_status, lookup_insert_eq. eauto with lia.
    + destruct (decide (key_of c = alert_key s)) as [<-|Hne].
      * rewrite lookup_insert_eq. eexists; split; [done|].
        apply clock_monotone. by eapply H2.
      * rewrite lookup_insert_ne by done. eauto.
  - intros i s [Hin|[Heq|Hin]%elem_of_cons]%elem_of_app.
    + by apply no_alert_not_in in Hin.
    + injection Heq as _ ->. by exists c, v, ts.
    + eauto.
Qed.

Lemma Inv_gate_post c v ts w w' :
  Inv E self w ->
  (0 < ticks w)%nat ->
  gate_post E (key_of c) (cooldown_minutes (class_of c))
    (status_dict E self c v ts) w w' ->
  Inv E self w'.
Proof.
  intros HI Hpos. unfold gate_post.
  destruct (last_alert w !! key_of c) as [t|] eqn:Hl.
  - case_bool_decide as Hdue.
    + intros (evs & n & Hno & Hst & ->).
      apply Inv_fire; [by apply Inv_tick|cbn; lia|done|done|].
      cbn. intros t' Ht'. rewrite Hl in Ht'. injection Ht' as <-.
      rewrite Nat.sub_0_r. unfold cooldown. lia.
    + intros ->. by apply Inv_tick.
  - intros (evs & n & Hno & Hst & ->).
    apply Inv_fire; [done..|]. intros t Ht. congruence.
Qed.

Lemma Inv_run_check c w :
  Inv E self w -> Inv E self (world_of (run_check E self c w)).
Proof.
  intros HI. destruct (reading E c (reads w)) as [v|msg] eqn:Hr.
  - destruct (run_check_got E self c w v Hr) as (w' & -> & Hpost). cbn.
    destruct (breach self c v).
    + eapply Inv_gate_post; [| |exact Hpost].
      * by apply Inv_tick, Inv_count_read.
      * cbn. lia.
    + subst w'. by apply Inv_tick, Inv_count_read.
  - rewrite (run_check_fails E self c w msg Hr). cbn. by apply Inv_count_read.
Qed.

Lemma Inv_run_all cs w :
  Inv E self w -> Inv E self (world_of (run_all E self cs w)).
Proof.
  revert w. induction cs as [|c cs IH]; intros w HI; cbn; [done|].
  munfold. pose proof (Inv_run_check c w HI) as Hc.
  destruct (run_check E self c w) as [status w1|e w1]; cbn in *; [|done].
  by apply IH.
Qed.
End Spacing.

(** *** A cycle is its checks in order *)

Section Cycles.
Context (E : Env) (self : Monitor).

Lemma RQ_cycle_run_all qs w :
  RQ.cycle E self qs w = run_all E self (rq_checks qs) w.
Proof.
  revert w. induction qs as [|q qs IH]; intros w; [done|].
  unfold RQ.cycle, run_all in *. cbn. munfold.
  destruct (RQ.check_queue_depth E self q w) as [s1 w1|e1 w1]; [|done].
  destruct (RQ.check_failed_jobs E self q w1) as [s2 w2|e2 w2]; [|done].
  destruct (RQ.check_workers E self q w2) as [s3 w3|e3 w3]; [|done].
  apply IH.
Qed.

Lemma run_all_app cs1 cs2 w :
  run_all E self (cs1 ++ cs2) w =
  match run_all E self cs1 w with
  | Ret _ w1 => run_all E self cs2 w1
  | Raise e w1 => Raise e w1
  end.
Proof.
  revert w. induction cs1 as [|c cs1 IH]; intros w; [done|].
  unfold run_all in *. cbn. munfold.
  destruct (run_check E self c w) as [s1 w1|e1 w1]; [|done].
  apply IH.
Qed.

Lemma Celery_cycle_run_all qs w :
  Celery.cycle E self qs w = run_all E self (celery_checks qs) w.
Proof.
  unfold celery_checks. rewrite run_all_app. unfold Celery.cycle. munfold.
  assert (Hloop : forall w0,
    for_each qs (fun q => fun w1 =>
      match Celery.check_queue_depth E self q w1 with
      | Ret _ w' => Ret () w'
      | Raise e w' => Raise e w'
      end) w0 = run_all E self (map Celery_depth qs) w0).
  { induction qs as [|q qs IH]; intros w0; [done|].
    unfold run_all in *. cbn. munfold.
    destruct (Celery.check_queue_depth E self q w0) as [s1 w1|e1 w1]; [|done].
    apply IH. }
  rewrite Hloop.
  destruct (run_all E self (map Celery_depth qs) w) as [[] w1|e w1]; [|done].
  unfold run_all. cbn. munfold.
  by destruct (Celery.check_workers E self w1).
Qed.
End Cycles.

Section Loops.
Context (E : Env) (self : Monitor).
Hypothesis clock_monotone : monotone_clock E.

Lemma Inv_RQ_loop n qs w :
  Inv E self w -> Inv E self (world_of (RQ.loop E self n qs w)).
Proof.
  revert w. induction n as [|n IH]; intros w HI; cbn; [done|]. munfold.
  pose proof (Inv_run_all E self clock_monotone (rq_checks qs) w HI) as Hc.
  rewrite <- RQ_cycle_run_all in Hc.
  destruct (RQ.cycle E self qs w) as [[] w1|e w1]; cbn in *; [|done].
  destruct (sleep_cases E (check_interval self) w1) as [->|[e ->]]; [|done].
  apply IH. by apply Inv_log.
Qed.

Lemma Inv_Celery_loop n qs w :
  Inv E self w -> Inv E self (world_of (Celery.loop E self n qs w)).
Proof.
  revert w. induction n as [|n IH]; intros w HI; cbn; [done|]. munfold.
  pose proof (Inv_run_all E self clock_monotone (celery_checks qs) w HI) as Hc.
  rewrite <- Celery_cycle_run_all in Hc.
  destruct (Celery.cycle E self qs w) as [[] w1|e w1]; cbn in *; [|done].
  destruct (sleep_cases E (check_interval self) w1) as [->|[e ->]]; [|done].
  apply IH. by apply Inv_log.
Qed.

Lemma Inv_RQ_monitor n qs :
  Inv E self (world_of (RQ.monitor E self n qs init_world)).
Proof.
  unfold RQ.monitor, print, emit. munfold.
  apply Inv_RQ_loop. repeat (apply Inv_log; [done|]). apply Inv_init.
Qed.

Lemma Inv_Celery_monitor n qs :
  Inv E self (world_of (Celery.monitor E self n qs init_world)).
Proof.
  unfold Celery.monitor, print, emit. munfold.
  apply Inv_Celery_loop. repeat (apply Inv_log; [done|]). apply Inv_init.
Qed.
End Loops.

(** *** What one check does to the state *)

Section Effects.
Context (E : Env) (self : Monitor).

Lemma alerted_not_quiet w w' : alerted w w' -> quiet w w' -> False.
Proof.
  intros (evs & i & s & Hno & Ha) (evs' & Hno' & Hq).
  rewrite Hq in Ha. rewrite (cons_middle _ evs), app_assoc in Ha.
  apply app_inv_tail in Ha. subst evs'.
  apply Forall_app in Hno' as [_ Hbad]. by inversion Hbad.
Qed.

Lemma quiet_same w w' : out w' = out w -> quiet w w'.
Proof. intros H. exists []. split; [constructor|done]. Qed.

Lemma fires_alerted key status w0 w w' :
  out w0 = out w -> fires E key status w0 w' ->
  alerted w w' /\
  last_alert w' = <[key := utcnow_at E (ticks w' - 1)]> (last_alert w0).
Proof.
  intros Hout (evs & n & Hno & _ & ->). split.
  - exists evs, (ticks w0), status. by rewrite <- Hout.
  - cbn. by rewrite Nat.sub_0_r.
Qed.

Lemma run_check_effect c w :
  let w' := world_of (run_check E self c w) in
  (alerted w w' /\
   last_alert w' = <[key_of c := utcnow_at E (ticks w' - 1)]> (last_alert w))
  \/ (quiet w w' /\ last_alert w' = last_alert w).
Proof.
  cbn zeta. destruct (reading E c (reads w)) as [v|msg] eqn:Hr.
  - destruct (run_check_got E self c w v Hr) as (w' & -> & Hpost). cbn.
    destruct (breach self c v).
    + unfold gate_post in Hpost. cbn in Hpost.
      destruct (last_alert w !! key_of c) as [t|].
      * case_bool_decide.
        -- left. by eapply (fires_alerted _ _ (tick (tick (count_read w)))).
        -- subst w'. right. split; [by apply quiet_same|done].
      * left. by eapply (fires_alerted _ _ (tick (count_read w))).
    + subst w'. right. split; [by apply quiet_same|done].
  - rewrite (run_check_fails E self c w msg Hr). cbn.
    right. split; [by apply quiet_same|done].
Qed.

(** *** Entries of other keys neither matter nor change *)




End Effects.

(** *** Reading a status dictionary *)

Section Status.
Context (E : Env) (self : Monitor).

Lemma status_dict_status c v ts :
  dict_get "status" (status_dict E self c v ts)
  = Some (VStr (status_of self c v)).
Proof. by destruct c. Qed.

Lemma status_dict_depth c v ts :
  class_of c = Depth ->
  dict_get "depth" (status_dict E self c v ts) = Some (VInt v) /\
  dict_get "threshold" (status_dict E self c v ts)
  = Some (VInt (queue_depth_threshold self)).
Proof. by destruct c. Qed.

Lemma status_dict_workers c v ts :
  class_of c = Workers ->
  dict_get "workers" (status_dict E self c v ts) = Some (VInt v).
Proof. by destruct c. Qed.

Lemma status_dict_failed c v ts :
  class_of c = Failed ->
  dict_get "failed_count" (status_dict E self c v ts) = Some (VInt v).
Proof. by destruct c. Qed.
End Status.

(** *** What a check returns *)

Lemma run_check_value (E : Env) (self : Monitor) (c : check) (w : World) :
  value_of (run_check E self c w)
  = match reading E c (reads w) with
    | Got v => inl (status_dict E self c v (utcnow_at E (ticks w)))
    | Fails msg => inr (RedisError msg)
    end.
Proof.
  destruct (reading E c (reads w)) as [v|msg] eqn:Hr.
  - by destruct (run_check_got E self c w v Hr) as (w' & -> & _).
  - by rewrite (run_check_fails E self c w msg Hr).
Qed.

Lemma run_check_last_alert (E : Env) (self : Monitor) (c : check) (w : World) :
  last_alert (world_of (run_check E self c w)) = last_alert w \/
  exists t, last_alert (world_of (run_check E self c w))
            = <[key_of c := t]> (last_alert w).
Proof.
  destruct (run_check_effect E self c w) as [[_ H]|[_ H]]; eauto.
Qed.

(** ** The properties *)

(** C1.  A depth check (RQ or Celery) whose read gives [v] returns a status
    dictionary holding [v] and the threshold, whose ["status"] is ["alert"]
    if and only if [v >= threshold] and ["ok"] if and only if
    [v < threshold]; at [v = threshold] it is ["alert"]. *)
Theorem C1_depth_status (E : Env) (self : Monitor) (c : check) (w : World) (v : Z) :
  class_of c = Depth ->
  reading E c (reads w) = Got v ->
  exists status w',
    run_check E self c w = Ret status w' /\
    dict_get "depth" status = Some (VInt v) /\
    dict_get "threshold" status = Some (VInt (queue_depth_threshold self)) /\
    (dict_get "status" status = Some (VStr "alert")
       <-> v >= queue_depth_threshold self) /\
    (dict_get "status" status = Some (VStr "ok")
       <-> v < queue_depth_threshold self).
Proof.
  intros Hc Hr.
  destruct (run_check_got E self c w v Hr) as (w' & Hrun & _).
  eexists _, w'. split; [exact Hrun|].
  rewrite status_dict_status.
  destruct (status_dict_depth E self c v (utcnow_at E (ticks w)) Hc) as [-> ->].
  unfold status_of. rewrite Hc.
  split; [done|split; [done|]].
  case_bool_decide; split; split; intros; (lia || congruence).
Qed.

Lemma C1_depth_status_witness :
  exists status w',
    run_check backlog_env console_monitor (RQ_depth "default") init_world
      = Ret status w' /\
    dict_get "depth" status = Some (VInt 600) /\
    dict_get "threshold" status = Some (VInt 500) /\
    (dict_get "status" status = Some (VStr "alert") <-> 600 >= 500) /\
    (dict_get "status" status = Some (VStr "ok") <-> 600 < 500).
Proof.
  apply (C1_depth_status backlog_env console_monitor (RQ_depth "default")
           init_world 600); reflexivity.
Defined.

(** C2, as the spec states it, fails: the clock is the wall clock, and it
    can be set back.  Three rounds on queue ["default"], 600 jobs waiting:
    the first alert is recorded when the clock reads 100 minutes; the
    second is sent when it reads 120; the clock is then set back and the
    second alert is recorded at 90; the third alert is sent when the clock
    reads 106, six minutes after the first and fourteen before the reading
    at which the second was sent. *)
Lemma C2_clock_set_back :
  let tr := out (world_of (RQ.monitor set_back_env console_monitor 3
                             ["default"] init_world)) in
  let depth_alert ts :=
    Alert (status_dict set_back_env console_monitor (RQ_depth "default") 600 ts) in
  List.filter (fun se => is_alert se.2) tr
  = [(11%nat, depth_alert 5400000000);
     (6%nat, depth_alert 6000000000);
     (1%nat, depth_alert 6000000000)]
  /\ utcnow_at set_back_env 1 = 100 * 60000000
  /\ utcnow_at set_back_env 5 = 120 * 60000000
  /\ utcnow_at set_back_env 6 = 90 * 60000000
  /\ utcnow_at set_back_env 10 = 106 * 60000000
  /\ ~ alerts_spaced set_back_env tr.
Proof.
  cbn zeta. split; [vm_compute; reflexivity|].
  do 4 (split; [vm_compute; reflexivity|]).
  intros Hspaced.
  set (tr := out (world_of (RQ.monitor set_back_env console_monitor 3
                              ["default"] init_world))) in *.
  destruct (Hspaced (firstn 2 tr) 11%nat
              (status_dict set_back_env console_monitor (RQ_depth "default")
                 600 5400000000)
              (skipn 3 tr) 1%nat
              (status_dict set_back_env console_monitor (RQ_depth "default")
                 600 6000000000))
    as (_ & _ & Hlt).
  - vm_compute. reflexivity.
  - vm_compute.
    repeat (apply list_elem_of_here || apply list_elem_of_further).
  - reflexivity.
  - vm_compute in Hlt. discriminate Hlt.
Qed.

(** C2, amended.  When the clock does not run backwards, in every run of
    [monitor]
    (RQ or Celery, any queue names, any number of rounds, whatever Redis
    and the webhook answer) two alerts of the same key are of the same
    metric class and more than its cooldown apart: the last clock reading
    before the later one is more than 15 minutes (depth), 30 minutes
    (failed jobs) or 5 minutes (workers) after the first clock reading
    that follows the earlier one. *)
Theorem C2_alerts_spaced_by_cooldown (E : Env) (self : Monitor)
    (n : nat) (queue_names : list string) :
  monotone_clock E ->
  alerts_spaced E (out (world_of (RQ.monitor E self n queue_names init_world)))
  /\ alerts_spaced E
       (out (world_of (Celery.monitor E self n queue_names init_world)))
  /\ cooldown Depth = 15 * 60 * 1000000
  /\ cooldown Failed = 30 * 60 * 1000000
  /\ cooldown Workers = 5 * 60 * 1000000.
Proof.
  intros Hmono. split; [|split; [|done]].
  - apply spaced_alerts_spaced. by apply (Inv_RQ_monitor E self Hmono).
  - apply spaced_alerts_spaced. by apply (Inv_Celery_monitor E self Hmono).
Qed.

Lemma C2_alerts_spaced_by_cooldown_witness :
  alerts_spaced backlog_env
    (out (world_of (RQ.monitor backlog_env console_monitor 2 ["default"]
                      init_world)))
  /\ alerts_spaced backlog_env
       (out (world_of (Celery.monitor backlog_env console_monitor 2 ["default"]
                         init_world)))
  /\ cooldown Depth = 15 * 60 * 1000000
  /\ cooldown Failed = 30 * 60 * 1000000
  /\ cooldown Workers = 5 * 60 * 1000000.
Proof.
  apply (C2_alerts_spaced_by_cooldown backlog_env console_monitor 2 ["default"]).
  intros i j Hij. cbn. lia.
Defined.

(** The run of the witness does send two alerts of one key: at the second
    round the 15 minutes are over. *)
Example two_alerts_in_backlog_run :
  filter (fun se => is_alert se.2 = true)
    (out (world_of (RQ.monitor backlog_env console_monitor 2 ["default"]
                      init_world)))
  = [(6%nat, Alert (status_dict backlog_env console_monitor
                      (RQ_depth "default") 600 1200000000));
     (1%nat, Alert (status_dict backlog_env console_monitor
                      (RQ_depth "default") 600 0))].
Proof. vm_compute. reflexivity. Qed.

(** C3, as the spec states it, fails.  The webhook cannot be reached: the
    post raises, the error line is printed, and the check still stores
    the time under ["default:depth"], which had no entry before. *)
Lemma C3_state_written_after_failed_post :
  let r := RQ.check_queue_depth unreachable_env webhook_monitor "default"
             init_world in
  post_at unreachable_env 0 "http://hooks.example/alert"
    "🚨 Queue 'default' depth: 600 (threshold: 500)"
  = PostRaises "connection refused"
  /\ out (world_of r)
     = [(1%nat, Print "[ERROR] Failed to send alert: connection refused");
        (1%nat, Post "http://hooks.example/alert"
                  "🚨 Queue 'default' depth: 600 (threshold: 500)");
        (1%nat, Print "[ALERT] 🚨 Queue 'default' depth: 600 (threshold: 500)");
        (1%nat, Alert (status_dict unreachable_env webhook_monitor
                         (RQ_depth "default") 600 0))]
  /\ last_alert init_world !! "default:depth" = None
  /\ last_alert (world_of r) !! "default:depth" = Some 300000000.
Proof. vm_compute. repeat split. Qed.

(** C3, amended.  A check writes [last_alert] exactly when it called
    [send_alert]: then it stores, under its own key, the clock reading
    taken right after the call, whatever became of the post; a check that
    sent no alert leaves [last_alert] as it was.  (A call with an alert and
    a call without one are told apart by the trace.) *)
Theorem C3_state_written_when_alert_sent (E : Env) (self : Monitor)
    (c : check) (w : World) :
  let w' := world_of (run_check E self c w) in
  ((alerted w w' /\
    last_alert w' = <[key_of c := utcnow_at E (ticks w' - 1)]> (last_alert w))
   \/ (quiet w w' /\ last_alert w' = last_alert w))
  /\ ~ (alerted w w' /\ quiet w w').
Proof.
  cbn zeta. split.
  - apply run_check_effect.
  - intros [Ha Hq]. by eapply alerted_not_quiet.
Qed.

(** C4, as the spec states it, fails.  Redis is down: the first read of
    the cycle raises, nothing catches the error, and the cycle ends there
    with one Redis call made: no metric of queue ["a"] or ["b"] is
    evaluated any further, and the error leaves [monitor] too. *)
Lemma C4_read_error_aborts_cycle :
  RQ.cycle redis_down_env console_monitor ["a"; "b"] init_world
  = Raise (RedisError "connection lost")
      {| last_alert := ∅; ticks := 0; reads := 1; posts := 0; out := [] |}
  /\ value_of (RQ.monitor redis_down_env console_monitor 1 ["a"; "b"] init_world)
     = inr (RedisError "connection lost")
  /\ value_of (Celery.monitor redis_down_env console_monitor 1 ["a"; "b"]
                 init_world)
     = inr (RedisError "connection lost").
Proof. vm_compute. repeat split. Qed.

(** C4, amended.  A cycle makes its checks in order for as long as none
    raises.  The RQ checks and the Celery depth check do not catch the
    error of their Redis call: it ends the check right after the call, the
    cycle with it, and the checks after it are not made.  Only the Celery
    worker scan swallows its error: it counts the keys seen before the
    error and goes on, so the worker metric is ["critical"] when no key
    was seen, and ["ok"] otherwise. *)
Theorem C4_read_errors (E : Env) (self : Monitor) :
  (forall c w msg,
     reading E c (reads w) = Fails msg ->
     run_check E self c w = Raise (RedisError msg) (count_read w))
  /\ (forall qs w, RQ.cycle E self qs w = run_all E self (rq_checks qs) w)
  /\ (forall qs w, Celery.cycle E self qs w = run_all E self (celery_checks qs) w)
  /\ (forall cs1 c cs2 w w1 e w2,
        run_all E self cs1 w = Ret tt w1 ->
        run_check E self c w1 = Raise e w2 ->
        run_all E self (cs1 ++ c :: cs2) w = Raise e w2)
  /\ (forall cs w, (forall c n, c ∈ cs -> exists v, reading E c n = Got v) ->
        exists w', run_all E self cs w = Ret tt w')
  /\ (forall w keys msg,
        scan_iter_at E (reads w) "celery:*:pidbox:*" = (keys, Some msg) ->
        exists status w',
          Celery.check_workers E self w = Ret status w' /\
          dict_get "workers" status = Some (VInt (Z.of_nat (length keys))) /\
          dict_get "status" status
          = Some (VStr (if bool_decide (keys = []) then "critical" else "ok"))).
Proof.
  split; [|split; [|split; [|split; [|split]]]].
  - intros c w msg. apply run_check_fails.
  - apply RQ_cycle_run_all.
  - apply Celery_cycle_run_all.
  - intros cs1 c cs2 w w1 e w2 H1 H2.
    rewrite run_all_app, H1. unfold run_all. cbn. munfold. by rewrite H2.
  - intros cs. induction cs as [|c cs IH]; intros w Hall; [by eexists|].
    destruct (Hall c (reads w)) as [v Hv]; [by left|].
    destruct (run_check_got E self c w v Hv) as (w1 & Hrun & _).
    destruct (IH w1) as [w' Hw']; [intros; apply Hall; by right|].
    exists w'. unfold run_all in *. cbn. munfold. by rewrite Hrun.
  - intros w keys msg Hscan.
    assert (Hr : reading E Celery_workers (reads w)
                 = Got (Z.of_nat (length keys))) by (cbn; by rewrite Hscan).
    destruct (run_check_got E self Celery_workers w _ Hr) as (w' & Hrun & _).
    eexists _, w'. split; [exact Hrun|].
    rewrite status_dict_status, status_dict_workers by done.
    split; [done|]. unfold status_of. cbn.
    destruct keys; cbn; repeat case_bool_decide; (done || lia).
Qed.

Lemma C4_read_errors_witness :
  run_all redis_down_env console_monitor
    ([] ++ RQ_depth "a" :: [RQ_failed "a"; RQ_workers "a"]) init_world
  = Raise (RedisError "connection lost") (count_read init_world).
Proof.
  apply (proj1 (proj2 (proj2 (proj2
           (C4_read_errors redis_down_env console_monitor))))
           [] (RQ_depth "a") [RQ_failed "a"; RQ_workers "a"]
           init_world init_world).
  - reflexivity.
  - apply (proj1 (C4_read_errors redis_down_env console_monitor)).
    reflexivity.
Defined.

(** C5, as the spec states it, fails.  The webhook answers 500:
    [send_alert] prints the alert, posts it, and returns; no error line is
    printed and no error is reported.  The webhook cannot be reached:
    the error line is printed, and [send_alert] returns all the same,
    reporting nothing. *)
Lemma C5_failed_delivery_not_reported :
  let status := status_dict http500_env webhook_monitor (RQ_depth "default") 600 0 in
  let message := "🚨 Queue 'default' depth: 600 (threshold: 500)" in
  RQ.send_alert http500_env webhook_monitor status init_world
  = Ret tt
      {| last_alert := ∅; ticks := 0; reads := 0; posts := 1;
         out := [(0%nat, Post "http://hooks.example/alert" message);
                 (0%nat, Print ("[ALERT] " +:+ message));
                 (0%nat, Alert status)] |}
  /\ RQ.send_alert unreachable_env webhook_monitor status init_world
     = Ret tt
         {| last_alert := ∅; ticks := 0; reads := 0; posts := 1;
            out := [(0%nat, Print "[ERROR] Failed to send alert: connection refused");
                    (0%nat, Post "http://hooks.example/alert" message);
                    (0%nat, Print ("[ALERT] " +:+ message));
                    (0%nat, Alert status)] |}.
Proof. vm_compute. split; reflexivity. Qed.

(** C5, amended.  [send_alert] always returns, and returns nothing: it
    reports no error.  When the post raises a request exception, the line
    ["[ERROR] Failed to send alert: ..."] is printed after the alert and the
    post; when the webhook answers, with whatever code, nothing more is
    printed.  What a check gives back is decided by its Redis call alone,
    so the loop goes on to the next metric whatever the webhook does. *)
Theorem C5_send_alert_swallows_post_errors (E : Env) (self : Monitor)
    (c : check) (v ts : Z) (w : World) :
  let status := status_dict E self c v ts in
  (exists message w',
     format_of E c status w = Ret message w /\
     send_of E self c status w = Ret tt w' /\
     last_alert w' = last_alert w /\
     let sent_to_console :=
       [(ticks w, Print ("[ALERT] " +:+ message)); (ticks w, Alert status)] in
     out w' =
       match alert_webhook self with
       | None => sent_to_console ++ out w
       | Some url =>
           if bool_decide (url = "") then sent_to_console ++ out w
           else
             match post_at E (posts w) url message with
             | Response _ =>
                 (ticks w, Post url message) :: sent_to_console ++ out w
             | PostRaises err =>
                 (ticks w, Print ("[ERROR] Failed to send alert: " +:+ err))
                   :: (ticks w, Post url message) :: sent_to_console ++ out w
             end
       end)
  /\ value_of (run_check E self c w)
     = match reading E c (reads w) with
       | Got v' => inl (status_dict E self c v' (utcnow_at E (ticks w)))
       | Fails msg => inr (RedisError msg)
       end.
Proof.
  cbn zeta. split.
  - assert (Hfmt : exists message,
              forall w0, format_of E c (status_dict E self c v ts) w0
                         = Ret message w0)
      by (destruct c; eexists; intros w0; reflexivity).
    destruct Hfmt as [message Hfmt]. exists message.
    assert (Hsend : send_of E self c (status_dict E self c v ts) w
                    = send_alert_with E (format_of E c) self
                        (status_dict E self c v ts) w) by by destruct c.
    rewrite Hsend. unfold send_alert_with, emit, print. munfold.
    rewrite !Hfmt. cbn.
    destruct (alert_webhook self) as [url|]; [|by eexists].
    case_bool_decide; [by eexists|].
    unfold try_except, requests_post. cbn.
    destruct (post_at E (posts w) url message); cbn; by eexists.
  - apply run_check_value.
Qed.

(** The worker count a check reads is a length. *)
Lemma workers_reading_nonneg (E : Env) (c : check) (n : nat) (v : Z) :
  class_of c = Workers -> reading E c n = Got v -> 0 <= v.
Proof.
  destruct c; try discriminate; cbn; intros _.
  - destruct (worker_all_at E n queue_name); intros [= <-]. lia.
  - intros [= <-]. lia.
Qed.

(** The test of the gate is [should_alert]. *)
Lemma gate_should_alert (E : Env) send key minutes status w :
  gate E send key minutes status w
  = (due ← should_alert E key minutes;
     when due (send status;; now ← utcnow E; last_alert_set key now)) w.
Proof.
  unfold gate, should_alert. munfold. unfold last_alert_get.
  by destruct (alert_is_due E (last_alert w !! key) minutes w).
Qed.

(** Whether a check sends an alert, read off its number and the entry of
    its key. *)
Lemma run_check_alerted (E : Env) (self : Monitor) (c : check) (w : World) (v : Z) :
  reading E c (reads w) = Got v ->
  alerted w (world_of (run_check E self c w)) <->
  breach self c v = true /\
  match last_alert w !! key_of c with
  | None => True
  | Some t =>
      utcnow_at E (S (ticks w)) - t > timedelta_minutes (cooldown_minutes (class_of c))
  end.
Proof.
  intros Hr. destruct (run_check_got E self c w v Hr) as (w' & -> & Hpost). cbn.
  destruct (breach self c v).
  - unfold gate_post in Hpost. cbn in Hpost.
    destruct (last_alert w !! key_of c) as [t|].
    + case_bool_decide.
      * split; [done|]. intros _.
        by eapply (fires_alerted E _ _ (tick (tick (count_read w)))).
      * subst w'. split; [|by intros [_ ?]].
        intros Ha. exfalso. eapply alerted_not_quiet; [exact Ha|].
        by apply quiet_same.
    + split; [done|]. intros _.
      by eapply (fires_alerted E _ _ (tick (count_read w))).
  - subst w'. split; [|by intros [? _]].
    intros Ha. exfalso. eapply alerted_not_quiet; [exact Ha|].
    by apply quiet_same.
Qed.

(** C7.  A failed-jobs check that counts [v] failed jobs gives status
    ["ok"] for [v = 0] and ["warning"] for every other [v]. *)
Theorem C7_failed_jobs_status (E : Env) (self : Monitor) (queue_name : string)
    (w : World) (v : Z) :
  scard_at E (reads w) ("rq:queue:" +:+ queue_name +:+ ":failed") = Got v ->
  exists status w',
    RQ.check_failed_jobs E self queue_name w = Ret status w' /\
    dict_get "failed_count" status = Some (VInt v) /\
    (v = 0 -> dict_get "status" status = Some (VStr "ok")) /\
    (v <> 0 -> dict_get "status" status = Some (VStr "warning")).
Proof.
  intros Hr.
  destruct (run_check_got E self (RQ_failed queue_name) w v Hr)
    as (w' & Hrun & _).
  eexists _, w'. split; [exact Hrun|].
  rewrite status_dict_status, status_dict_failed by done.
  unfold status_of. cbn.
  split; [done|]. split; intros H.
  - by rewrite bool_decide_true.
  - by rewrite bool_decide_false.
Qed.

Lemma C7_failed_jobs_status_witness :
  exists status w',
    RQ.check_failed_jobs trouble_env console_monitor "default" init_world
      = Ret status w' /\
    dict_get "failed_count" status = Some (VInt 3) /\
    (3 = 0 -> dict_get "status" status = Some (VStr "ok")) /\
    (3 <> 0 -> dict_get "status" status = Some (VStr "warning")).
Proof.
  apply (C7_failed_jobs_status trouble_env console_monitor "default"
           init_world 3).
  reflexivity.
Defined.

(** C9.  What a check returns (its status dictionary, or the error of its
    Redis call) is the same from two states that have made the same
    numbers of Redis calls and clock readings, whatever [last_alert] holds
    in either. *)
Theorem C9_status_independent_of_alert_state (E : Env) (self : Monitor)
    (c : check) (w1 w2 : World) :
  reads w1 = reads w2 ->
  ticks w1 = ticks w2 ->
  value_of (run_check E self c w1) = value_of (run_check E self c w2).
Proof.
  intros Hreads Hticks.
  rewrite !run_check_value. by rewrite Hreads, Hticks.
Qed.

Lemma C9_status_independent_of_alert_state_witness :
  value_of (run_check backlog_env console_monitor (RQ_depth "default")
              init_world)
  = value_of (run_check backlog_env console_monitor (RQ_depth "default")
                (store "default:depth" 0 init_world)).
Proof.
  apply (C9_status_independent_of_alert_state backlog_env console_monitor
           (RQ_depth "default") init_world (store "default:depth" 0 init_world));
    reflexivity.
Defined.

(** In the two runs of the witness the first sends an alert and the second,
    five minutes after the recorded one, does not. *)
Example same_status_different_dispatch :
  let c := RQ_depth "default" in
  let status := status_dict backlog_env console_monitor c 600 0 in
  run_check backlog_env console_monitor c init_world
  = Ret status
      {| last_alert := {["default:depth" := 300000000]};
         ticks := 2; reads := 1; posts := 0;
         out := [(1%nat, Print "[ALERT] 🚨 Queue 'default' depth: 600 (threshold: 500)");
                 (1%nat, Alert status)] |}
  /\ run_check backlog_env console_monitor c (store "default:depth" 0 init_world)
     = Ret status
         {| last_alert := {["default:depth" := 0]};
            ticks := 2; reads := 1; posts := 0; out := [] |}.
Proof. vm_compute. split; reflexivity. Qed.

(** C10.  A check leaves the entry of every key but its own as it was,
    and after it every key that had an entry still has one.  The own key
    is ["q:depth"] for a depth check of queue [q], ["q:failed"] for the
    failed-jobs check, ["q:workers"] for the RQ worker check and
    ["workers"] for the Celery worker check. *)
Theorem C10_check_writes_own_key_only (E : Env) (self : Monitor) (c : check)
    (w : World) (k : string) :
  let w' := world_of (run_check E self c w) in
  (k <> key_of c -> last_alert w' !! k = last_alert w !! k)
  /\ (is_Some (last_alert w !! k) -> is_Some (last_alert w' !! k))
  /\ key_of c = match c with
                | RQ_depth q | Celery_depth q => q +:+ ":depth"
                | RQ_failed q => q +:+ ":failed"
                | RQ_workers q => q +:+ ":workers"
                | Celery_workers => "workers"
                end.
Proof.
  cbn zeta. split; [|split; [|by destruct c]].
  - intros Hne.
    destruct (run_check_last_alert E self c w) as [->|[t ->]]; [done|].
    by rewrite lookup_insert_ne.
  - intros Hsome.
    destruct (run_check_last_alert E self c w) as [->|[t ->]]; [done|].
    destruct (decide (key_of c = k)) as [->|Hne].
    + rewrite lookup_insert_eq. by eexists.
    + by rewrite lookup_insert_ne.
Qed.

Lemma C10_check_writes_own_key_only_witness :
  let w := store "default:failed" 7 init_world in
  let w' := world_of (run_check backlog_env console_monitor
                        (RQ_depth "default") w) in
  last_alert w' !! "default:failed" = last_alert w !! "default:failed"
  /\ is_Some (last_alert w' !! "default:failed").
Proof.
  cbn zeta.
  destruct (C10_check_writes_own_key_only backlog_env console_monitor
              (RQ_depth "default") (store "default:failed" 7 init_world)
              "default:failed") as (Hframe & Hkeep & _).
  split.
  - apply Hframe. discriminate.
  - apply Hkeep. vm_compute. eexists. reflexivity.
Defined.

(** ** Further properties *)

(** *** Helpers: dictionaries and formatting *)

Lemma has_key_dict_get k (d : dict) :
  has_key k d = true <-> is_Some (dict_get k d).
Proof.
  induction d as [|[k' v] d IH]; cbn.
  - split; [done|]. by intros [? ?].
  - case_bool_decide; cbn; [|done]. split; [by eexists|done].
Qed.

Lemma has_key_false_get k (d : dict) :
  has_key k d = false <-> dict_get k d = None.
Proof.
  rewrite <- not_true_iff_false, has_key_dict_get, <- eq_None_not_Some. done.
Qed.

Lemma RQ_format_alert_pure (E : Env) status w w0 :
  RQ.format_alert E status w = on_world (fun _ => w) (RQ.format_alert E status w0).
Proof.
  unfold RQ.format_alert, subscript. munfold.
  repeat (destruct (has_key _ status)); repeat (destruct (dict_get _ status));
    reflexivity.
Qed.

Lemma Celery_format_alert_pure (E : Env) status w w0 :
  Celery.format_alert E status w
  = on_world (fun _ => w) (Celery.format_alert E status w0).
Proof.
  unfold Celery.format_alert, subscript. munfold.
  repeat (destruct (has_key _ status)); repeat (destruct (dict_get _ status));
    reflexivity.
Qed.

Lemma format_of_pure (E : Env) c status w w0 :
  format_of E c status w = on_world (fun _ => w) (format_of E c status w0).
Proof.
  destruct c; cbn [format_of];
    (apply RQ_format_alert_pure || apply Celery_format_alert_pure).
Qed.


(** *** Helpers: the exact run of [send_alert] and of a check *)

Section Exact.
Context (E : Env) (self : Monitor).

Lemma send_alert_with_exact (fmt : dict -> M string) status message w :
  (forall w0, fmt status w0 = Ret message w0) ->
  send_alert_with E fmt self status w
  = Ret tt (after_send E self message status w).
Proof.
  intros Hfmt. unfold send_alert_with, emit, print. munfold.
  rewrite Hfmt. unfold after_send, alert_events, delivery, webhook_url, stamp.
  cbn.
  destruct (alert_webhook self) as [url|]; cbn.
  - case_bool_decide; cbn.
    + by rewrite Nat.add_0_r.
    + unfold try_except, requests_post. cbn.
      destruct (post_at E (posts w) url message); cbn;
        by rewrite Nat.add_1_r.
  - by rewrite Nat.add_0_r.
Qed.

Lemma send_of_exact c v ts w :
  send_of E self c (status_dict E self c v ts) w
  = Ret tt (after_send E self (message_of self c v)
              (status_dict E self c v ts) w).
Proof.
  destruct c; cbn [send_of]; unfold RQ.send_alert, Celery.send_alert;
    apply send_alert_with_exact; intros w0; reflexivity.
Qed.

Lemma run_check_exact c w :
  run_check E self c w =
  match reading E c (reads w) with
  | Fails msg => Raise (RedisError msg) (count_read w)
  | Got v => Ret (status_dict E self c v (utcnow_at E (ticks w)))
               (after_check E self c v w)
  end.
Proof.
  rewrite run_check_eq.
  destruct (reading E c (reads w)) as [v|msg]; [|done].
  cbn zeta. unfold after_check, alerts. munfold.
  destruct (breach self c v); cbn [andb]; [|done].
  unfold gate, last_alert_get, alert_is_due. munfold. cbn.
  destruct (last_alert w !! key_of c) as [t|]; cbn.
  - unfold cooldown. case_bool_decide; [|done].
    rewrite send_of_exact. reflexivity.
  - rewrite send_of_exact. reflexivity.
Qed.

Lemma run_check_world c w v :
  reading E c (reads w) = Got v ->
  world_of (run_check E self c w) = after_check E self c v w.
Proof. intros H. by rewrite run_check_exact, H. Qed.
End Exact.

(** *** The worker alert and the cooldown, at the level of the checks *)





(** The worker alert of the witness, run: the call, the printed line and
    the post, all with the worker message. *)
Example worker_alert_trace :
  out (world_of (run_check trouble_env webhook_monitor (RQ_workers "default")
                   init_world))
  = [(1%nat, Post "http://hooks.example/alert"
               "🔴 Queue 'default' has no active workers!");
     (1%nat, Print "[ALERT] 🔴 Queue 'default' has no active workers!");
     (1%nat, Alert (status_dict trouble_env webhook_monitor
                      (RQ_workers "default") 0 0))].
Proof. vm_compute. reflexivity. Qed.



(** The round trip, run on a clock that stands still and then jumps: the
    depth check alerts and records; run again at the recorded time it
    sends nothing; run again twenty minutes later it alerts. *)
Example record_then_recheck :
  let E := set_back_env in
  let c := RQ_depth "default" in
  let w1 := world_of (run_check E console_monitor c init_world) in
  let w2 := world_of (run_check E console_monitor c w1) in
  let w3 := world_of (run_check E console_monitor c w2) in
  last_alert w1 !! "default:depth" = Some 6000000000
  /\ utcnow_at E (S (ticks w1)) = 6000000000
  /\ out w2 = out w1
  /\ utcnow_at E (S (ticks w2)) = 7200000000
  /\ length (out w3) = (length (out w2) + 2)%nat.
Proof. vm_compute. repeat split. Qed.

(** *** The scan of active tasks *)

(** X1.  [check_active_tasks] always returns the same dictionary, with
    [active_tasks] 0 and status ["ok"], whatever the scan yields and even
    when it raises; it makes one Redis call and changes nothing else. *)
Theorem X1_check_active_tasks_always_ok (E : Env) (w : World) :
  Celery.check_active_tasks E w
  = Ret [("active_tasks", VInt 0); ("status", VStr "ok")] (count_read w).
Proof.
  unfold Celery.check_active_tasks, Celery.redis_scan_iter, try_except.
  munfold.
  destruct (scan_iter_at E (reads w) "celery-task-meta-*") as [keys failure].
  assert (Hloop : forall w0, for_each keys (fun _ : string => fun w1 => Ret tt w1) w0
                             = Ret tt w0).
  { induction keys as [|k keys IH]; intros w0; [done|]. cbn. munfold. apply IH. }
  rewrite Hloop. by destruct failure.
Qed.

(** *** Formatting *)

(** X2.  [format_alert] never changes the state.  The RQ one raises only
    [KeyError]: for ["queue"] when the dictionary has one of the three
    metric keys and no ["queue"], for ["threshold"] when it has ["depth"]
    and no ["threshold"]; it returns whenever ["queue"] and ["threshold"]
    are there, and on every dictionary with none of the three metric
    keys.  The Celery one returns on every dictionary without ["depth"]. *)
Theorem X2_format_alert_errors (E : Env) (status : dict) (w : World) :
  (forall e w', RQ.format_alert E status w = Raise e w' ->
     w' = w /\
     ((e = KeyError "queue" /\ dict_get "queue" status = None /\
       (has_key "depth" status = true \/ has_key "failed_count" status = true
        \/ has_key "workers" status = true))
      \/ (e = KeyError "threshold" /\ has_key "depth" status = true /\
          dict_get "threshold" status = None)))
  /\ (forall message w', RQ.format_alert E status w = Ret message w' -> w' = w)
  /\ (is_Some (dict_get "queue" status) ->
      is_Some (dict_get "threshold" status) ->
      exists message, RQ.format_alert E status w = Ret message w)
  /\ (has_key "depth" status = false ->
      has_key "failed_count" status = false ->
      has_key "workers" status = false ->
      exists message, RQ.format_alert E status w = Ret message w)
  /\ (has_key "depth" status = false ->
      exists message, Celery.format_alert E status w = Ret message w)
  /\ (forall message w', Celery.format_alert E status w = Ret message w' -> w' = w).
Proof.
  unfold RQ.format_alert, Celery.format_alert, subscript. munfold.
  destruct (has_key "depth" status) eqn:Hd;
    [apply has_key_dict_get in Hd as [d Hd]; rewrite Hd|];
    (destruct (has_key "failed_count" status) eqn:Hf;
     [apply has_key_dict_get in Hf as [f Hf]; rewrite ?Hf|]);
    destruct (has_key "workers" status) eqn:Hw;
    destruct (dict_get "queue" status) as [q|] eqn:Hq;
    destruct (dict_get "threshold" status) as [t|] eqn:Ht;
    repeat split; intros;
    repeat match goal with
           | H : is_Some None |- _ => by destruct H
           | H : Ret _ _ = Ret _ _ |- _ => injection H as <- <-
           | H : Raise _ _ = Raise _ _ |- _ => injection H as <- <-
           | H : Ret _ _ = Raise _ _ |- _ => discriminate H
           | H : Raise _ _ = Ret _ _ |- _ => discriminate H
           | H : true = false |- _ => discriminate H
           end;
    try done; try (by eexists); try (split; [done|]); try tauto; eauto 10.
Qed.

Lemma X2_format_alert_errors_witness :
  init_world = init_world /\
  ((KeyError "queue" = KeyError "queue" /\
    dict_get "queue" [("depth", VInt 5)] = None /\
    (has_key "depth" [("depth", VInt 5)] = true
     \/ has_key "failed_count" [("depth", VInt 5)] = true
     \/ has_key "workers" [("depth", VInt 5)] = true))
   \/ (KeyError "queue" = KeyError "threshold" /\
       has_key "depth" [("depth", VInt 5)] = true /\
       dict_get "threshold" [("depth", VInt 5)] = None)).
Proof.
  apply (proj1 (X2_format_alert_errors backlog_env [("depth", VInt 5)]
                  init_world)
           (KeyError "queue") init_world).
  reflexivity.
Defined.

(** *** Sending *)

(** X4.  On a status its [format_alert] renders, [send_alert] of either
    script returns; it prints the alert line, makes one post when a
    webhook is configured ([None] and the empty string count as none) and
    no post otherwise; what it posts is the printed message, to the
    configured URL; it reads neither Redis nor the clock and leaves
    [last_alert] alone. *)
Theorem X4_send_alert_posts_once (E : Env) (self : Monitor) (c : check)
    (status : dict) (message : string) (w : World) :
  format_of E c status w = Ret message w ->
  exists w',
    send_of E self c status w = Ret tt w' /\
    last_alert w' = last_alert w /\ reads w' = reads w /\ ticks w' = ticks w /\
    posts w' = (posts w + match alert_webhook self with
                          | Some url => if bool_decide (url = "") then 0 else 1
                          | None => 0
                          end)%nat /\
    (ticks w, Print ("[ALERT] " +:+ message)) ∈ out w' /\
    (forall i url m, (i, Post url m) ∈ out w' ->
       (i, Post url m) ∈ out w \/
       (alert_webhook self = Some url /\ url <> "" /\ m = message)).
Proof.
  intros Hfmt.
  assert (Hpure : forall w0, format_of E c status w0 = Ret message w0).
  { intros w0. rewrite (format_of_pure E c status w0 w), Hfmt. done. }
  assert (Hsend : send_of E self c status w
                  = Ret tt (after_send E self message status w)).
  { destruct c; cbn [send_of format_of] in *;
      unfold RQ.send_alert, Celery.send_alert;
      by apply send_alert_with_exact. }
  eexists. split; [exact Hsend|]. cbn.
  unfold webhook_url, alert_events, delivery, webhook_url, stamp.
  split; [done|]. split; [done|]. split; [done|]. split; [|split].
  - destruct (alert_webhook self) as [url|]; [|done]. by case_bool_decide.
  - rewrite map_app, <- app_assoc. apply elem_of_app. right.
    apply elem_of_app. left. cbn. by left.
  - intros i url m Hin.
    rewrite map_app, <- app_assoc in Hin.
    apply elem_of_app in Hin as [Hin|Hin].
    + right. destruct (alert_webhook self) as [url'|]; cbn in Hin;
        [|by apply elem_of_nil in Hin].
      case_bool_decide; cbn in Hin; [by apply elem_of_nil in Hin|].
      destruct (post_at E (posts w) url' message); cbn in Hin;
        repeat (apply elem_of_cons in Hin as [Hin|Hin];
                [try discriminate Hin; injection Hin as -> -> ->; done|]);
        by apply elem_of_nil in Hin.
    + cbn in Hin.
      repeat (apply elem_of_cons in Hin as [Hin|Hin]; [discriminate Hin|]).
      by left.
Qed.

Lemma X4_send_alert_posts_once_witness :
  exists w',
    send_of unreachable_env webhook_monitor (RQ_failed "default")
      [("queue", VStr "default"); ("failed_count", VInt 3)] init_world
    = Ret tt w' /\
    last_alert w' = last_alert init_world /\ reads w' = reads init_world /\
    ticks w' = ticks init_world /\
    posts w' = (posts init_world
                + match alert_webhook webhook_monitor with
                  | Some url => if bool_decide (url = "") then 0 else 1
                  | None => 0
                  end)%nat /\
    (ticks init_world,
     Print ("[ALERT] " +:+ "⚠️ Queue 'default' has 3 failed jobs")) ∈ out w' /\
    (forall i url m, (i, Post url m) ∈ out w' ->
       (i, Post url m) ∈ out init_world \/
       (alert_webhook webhook_monitor = Some url /\ url <> "" /\
        m = "⚠️ Queue 'default' has 3 failed jobs")).
Proof.
  apply (X4_send_alert_posts_once unreachable_env webhook_monitor
           (RQ_failed "default")
           [("queue", VStr "default"); ("failed_count", VInt 3)]
           "⚠️ Queue 'default' has 3 failed jobs" init_world).
  reflexivity.
Defined.

(** X5.  A status with ["depth"] and without ["queue"] makes [send_alert]
    of either script raise [KeyError] for ["queue"]: the error of
    [format_alert] is not caught, and nothing is printed or posted (the
    trace gains the call alone). *)
Theorem X5_send_alert_key_error (E : Env) (self : Monitor) (status : dict)
    (w : World) :
  has_key "depth" status = true ->
  dict_get "queue" status = None ->
  RQ.send_alert E self status w = Raise (KeyError "queue") (log (Alert status) w)
  /\ Celery.send_alert E self status w
     = Raise (KeyError "queue") (log (Alert status) w).
Proof.
  intros Hd Hq.
  unfold RQ.send_alert, Celery.send_alert, send_alert_with, emit,
    RQ.format_alert, Celery.format_alert, subscript.
  munfold. by rewrite Hd, Hq.
Qed.

Lemma X5_send_alert_key_error_witness :
  RQ.send_alert backlog_env webhook_monitor [("depth", VInt 5)] init_world
  = Raise (KeyError "queue") (log (Alert [("depth", VInt 5)]) init_world)
  /\ Celery.send_alert backlog_env webhook_monitor [("depth", VInt 5)] init_world
     = Raise (KeyError "queue") (log (Alert [("depth", VInt 5)]) init_world).
Proof.
  apply (X5_send_alert_key_error backlog_env webhook_monitor
           [("depth", VInt 5)] init_world); reflexivity.
Defined.

(** *** One check *)

(** X3.  A check that alerts adds to the trace the call of [send_alert],
    the line ["[ALERT] "] with the message of its metric, and then what
    the webhook delivery leaves (the post, and the error line when the post
    raised), all before the next clock reading; a check that does not
    alert adds nothing to the trace.  The messages are the five templates
    of [message_of]. *)
Theorem X3_alert_trace (E : Env) (self : Monitor) (c : check) (w : World)
    (v : Z) :
  reading E c (reads w) = Got v ->
  let w' := world_of (run_check E self c w) in
  let status := status_dict E self c v (utcnow_at E (ticks w)) in
  if alerts E self c v w then
    exists j,
      out w' = stamp j (delivery E self (message_of self c v) (posts w)
                          ++ [Print ("[ALERT] " +:+ message_of self c v);
                              Alert status])
               ++ out w
  else out w' = out w.
Proof.
  intros Hr. cbn zeta. rewrite (run_check_world E self c w v Hr).
  unfold after_check, alerts.
  destruct (breach self c v); cbn [andb]; [|done].
  destruct (last_alert w !! key_of c) as [t|]; [case_bool_decide|];
    try done; cbn; by eexists.
Qed.

Lemma X3_alert_trace_witness :
  let c := RQ_depth "default" in
  let w' := world_of (run_check unreachable_env webhook_monitor c init_world) in
  let status := status_dict unreachable_env webhook_monitor c 600
                  (utcnow_at unreachable_env (ticks init_world)) in
  if alerts unreachable_env webhook_monitor c 600 init_world then
    exists j,
      out w' = stamp j (delivery unreachable_env webhook_monitor
                          (message_of webhook_monitor c 600) (posts init_world)
                          ++ [Print ("[ALERT] " +:+ message_of webhook_monitor c 600);
                              Alert status])
               ++ out init_world
  else out w' = out init_world.
Proof.
  apply (X3_alert_trace unreachable_env webhook_monitor (RQ_depth "default")
           init_world 600).
  reflexivity.
Defined.

(** X6.  A check makes exactly one Redis call.  When the call raises, it
    reads no clock and posts nothing.  Otherwise it reads the clock once
    for the timestamp, once more for the cooldown test when its number is
    a breach and its key has an entry, and once more to record the time
    when it alerts: three readings at most; and it makes one post when it
    alerts and a webhook is configured, none otherwise. *)
Theorem X6_check_cost (E : Env) (self : Monitor) (c : check) (w : World) :
  let w' := world_of (run_check E self c w) in
  reads w' = S (reads w) /\
  (ticks w <= ticks w' <= ticks w + 3)%nat /\
  (posts w <= posts w' <= posts w + 1)%nat /\
  match reading E c (reads w) with
  | Fails _ => ticks w' = ticks w /\ posts w' = posts w
  | Got v =>
      ticks w' = (ticks w + 1
                  + (if breach self c v && bool_decide (is_Some (last_alert w !! key_of c))
                     then 1 else 0)
                  + (if alerts E self c v w then 1 else 0))%nat /\
      posts w' = (posts w
                  + (if alerts E self c v w
                     then match webhook_url self with Some _ => 1 | None => 0 end
                     else 0))%nat
  end.
Proof.
  cbn zeta. rewrite run_check_exact.
  destruct (reading E c (reads w)) as [v|msg]; cbn; [|lia].
  unfold after_check, alerts.
  destruct (breach self c v); cbn [andb]; [|cbn; lia].
  destruct (last_alert w !! key_of c) as [t|]; [case_bool_decide|];
    cbn; destruct (webhook_url self); cbn; lia.
Qed.

(** *** Helpers: what every run keeps *)

Section Soundness.
Context (E : Env) (self : Monitor).

Lemma Sound_init cs : Sound E self cs init_world.
Proof.
  split; cbn.
  - intros ? ? Hin. by apply elem_of_nil in Hin.
  - intros ? ? ? Hin. by apply elem_of_nil in Hin.
  - intros k t Hl. by rewrite lookup_empty in Hl.
Qed.

Lemma Sound_log cs ev w :
  is_alert ev = false -> is_post ev = false ->
  Sound E self cs w -> Sound E self cs (log ev w).
Proof.
  intros Ha Hp [H1 H2 H3]. split; cbn.
  - intros i s [Heq|Hin]%elem_of_cons; [|eauto].
    injection Heq as _ <-. done.
  - intros i url m [Heq|Hin]%elem_of_cons; [|eauto].
    injection Heq as _ <-. done.
  - done.
Qed.

Lemma Sound_tick cs w : Sound E self cs w -> Sound E self cs (tick w).
Proof.
  intros [H1 H2 H3]. split; cbn; [done..|].
  intros k t Hl. destruct (H3 k t Hl) as [Hk (i & Hi & ->)].
  split; [done|]. exists i. split; [lia|done].
Qed.

Lemma Sound_count_read cs w :
  Sound E self cs w -> Sound E self cs (count_read w).
Proof. intros [H1 H2 H3]. by split. Qed.

Lemma stamp_elem j evs i ev : (i, ev) ∈ stamp j evs <-> i = j /\ ev ∈ evs.
Proof.
  unfold stamp. induction evs as [|ev' evs IH]; cbn.
  - rewrite !elem_of_nil. tauto.
  - rewrite !elem_of_cons, IH. split.
    + intros [[= -> ->]|[-> ?]]; auto.
    + intros [-> [->|?]]; auto.
Qed.

Lemma delivery_posts message n url m :
  Post url m ∈ delivery E self message n -> webhook_url self = Some url.
Proof.
  unfold delivery. destruct (webhook_url self) as [url'|]; cbn;
    [|by intros ?%elem_of_nil].
  destruct (post_at E n url' message); cbn; intros Hin;
    repeat (apply elem_of_cons in Hin as [Hin|Hin];
            [try discriminate Hin; by injection Hin as -> _|]);
    by apply elem_of_nil in Hin.
Qed.

Lemma delivery_no_alert message n s :
  Alert s ∉ delivery E self message n.
Proof.
  unfold delivery. destruct (webhook_url self) as [url'|]; cbn;
    [|by intros ?%elem_of_nil].
  destruct (post_at E n url' message); cbn; intros Hin;
    repeat (apply elem_of_cons in Hin as [Hin|Hin]; [discriminate Hin|]);
    by apply elem_of_nil in Hin.
Qed.

Lemma Sound_after_alert cs c v ts n w :
  c ∈ cs -> reading E c n = Got v -> breach self c v = true ->
  Sound E self cs w -> Sound E self cs (after_alert E self c v ts w).
Proof.
  intros Hc Hr Hb [H1 H2 H3]. split; cbn.
  - intros i s Hin. apply elem_of_app in Hin as [Hin|Hin]; [|eauto].
    apply stamp_elem in Hin as [-> Hin].
    unfold alert_events in Hin.
    apply elem_of_app in Hin as [Hin|Hin];
      [by apply delivery_no_alert in Hin|].
    apply elem_of_cons in Hin as [Hin|Hin]; [discriminate Hin|].
    apply elem_of_cons in Hin as [Hin|Hin]; [|by apply elem_of_nil in Hin].
    injection Hin as ->. by exists c, v, ts, n.
  - intros i url m Hin. apply elem_of_app in Hin as [Hin|Hin]; [|eauto].
    apply stamp_elem in Hin as [-> Hev].
    unfold alert_events in Hev.
    apply elem_of_app in Hev as [Hev|Hev]; [by eapply delivery_posts|].
    repeat (apply elem_of_cons in Hev as [Hev|Hev]; [discriminate Hev|]).
    by apply elem_of_nil in Hev.
  - intros k t Hl. destruct (decide (key_of c = k)) as [<-|Hne].
    + rewrite lookup_insert_eq in Hl. injection Hl as <-.
      split; [by exists c|]. exists (ticks w). split; [lia|done].
    + rewrite lookup_insert_ne in Hl by done.
      destruct (H3 k t Hl) as [Hk (i & Hi & ->)].
      split; [done|]. exists i. split; [lia|done].
Qed.

Lemma Sound_run_check cs c w :
  c ∈ cs -> Sound E self cs w ->
  Sound E self cs (world_of (run_check E self c w)).
Proof.
  intros Hc HS. rewrite run_check_exact.
  destruct (reading E c (reads w)) as [v|msg] eqn:Hr; cbn;
    [|by apply Sound_count_read].
  unfold after_check, alerts.
  destruct (breach self c v) eqn:Hb; cbn [andb];
    [|by apply Sound_tick, Sound_count_read].
  destruct (last_alert w !! key_of c) as [t|]; [case_bool_decide|].
  - eapply Sound_after_alert; [done..|].
    by apply Sound_tick, Sound_tick, Sound_count_read.
  - by apply Sound_tick, Sound_tick, Sound_count_read.
  - eapply Sound_after_alert; [done..|].
    by apply Sound_tick, Sound_count_read.
Qed.

Lemma Sound_run_all cs cs' w :
  cs' ⊆ cs -> Sound E self cs w ->
  Sound E self cs (world_of (run_all E self cs' w)).
Proof.
  revert w. induction cs' as [|c cs' IH]; intros w Hsub HS; cbn; [done|].
  munfold.
  assert (Hc : c ∈ cs) by (apply Hsub; by left).
  pose proof (Sound_run_check cs c w Hc HS) as Hw.
  destruct (run_check E self c w) as [st w1|e w1]; cbn in *; [|done].
  apply IH; [|done]. intros x Hx. apply Hsub. by right.
Qed.

Lemma Sound_RQ_loop n qs w :
  Sound E self (rq_checks qs) w ->
  Sound E self (rq_checks qs) (world_of (RQ.loop E self n qs w)).
Proof.
  revert w. induction n as [|n IH]; intros w HS; cbn; [done|]. munfold.
  pose proof (Sound_run_all (rq_checks qs) (rq_checks qs) w
                (reflexivity _) HS) as Hc.
  rewrite <- RQ_cycle_run_all in Hc.
  destruct (RQ.cycle E self qs w) as [[] w1|e w1]; cbn in *; [|done].
  destruct (sleep_cases E (check_interval self) w1) as [->|[e ->]]; [|done].
  apply IH. by apply Sound_log.
Qed.

Lemma Sound_Celery_loop n qs w :
  Sound E self (celery_checks qs) w ->
  Sound E self (celery_checks qs) (world_of (Celery.loop E self n qs w)).
Proof.
  revert w. induction n as [|n IH]; intros w HS; cbn; [done|]. munfold.
  pose proof (Sound_run_all (celery_checks qs) (celery_checks qs) w
                (reflexivity _) HS) as Hc.
  rewrite <- Celery_cycle_run_all in Hc.
  destruct (Celery.cycle E self qs w) as [[] w1|e w1]; cbn in *; [|done].
  destruct (sleep_cases E (check_interval self) w1) as [->|[e ->]]; [|done].
  apply IH. by apply Sound_log.
Qed.

Lemma Sound_RQ_monitor n qs w :
  Sound E self (rq_checks qs) w ->
  Sound E self (rq_checks qs) (world_of (RQ.monitor E self n qs w)).
Proof.
  intros HS. unfold RQ.monitor, print, emit. munfold.
  apply Sound_RQ_loop. by repeat (apply Sound_log; [done|done|]).
Qed.

Lemma Sound_Celery_monitor n qs w :
  Sound E self (celery_checks qs) w ->
  Sound E self (celery_checks qs) (world_of (Celery.monitor E self n qs w)).
Proof.
  intros HS. unfold Celery.monitor, print, emit. munfold.
  apply Sound_Celery_loop. by repeat (apply Sound_log; [done|done|]).
Qed.

Lemma elem_of_rq_checks c qs :
  c ∈ rq_checks qs ->
  exists q, q ∈ qs /\ (c = RQ_depth q \/ c = RQ_failed q \/ c = RQ_workers q).
Proof.
  unfold rq_checks. rewrite list_elem_of_In, in_flat_map.
  intros (q & Hq & Hc). exists q. rewrite list_elem_of_In. split; [done|].
  cbn in Hc. destruct Hc as [<-|[<-|[<-|[]]]]; auto.
Qed.

Lemma elem_of_celery_checks c qs :
  c ∈ celery_checks qs ->
  c = Celery_workers \/ exists q, q ∈ qs /\ c = Celery_depth q.
Proof.
  unfold celery_checks. rewrite elem_of_app, list_elem_of_fmap.
  intros [(q & -> & Hq)|Hc]; [right; by exists q|left].
  apply elem_of_cons in Hc as [->|Hc]; [done|by apply elem_of_nil in Hc].
Qed.
End Soundness.

(** *** Helpers: sleeps and recorded times *)

Section Counting.
Context (E : Env) (self : Monitor).

Lemma sleeps_app tr1 tr2 :
  sleeps self (tr1 ++ tr2) = (sleeps self tr1 + sleeps self tr2)%nat.
Proof. unfold sleeps. by rewrite List.filter_app, length_app. Qed.

Lemma sleeps_alert_events j message status n :
  sleeps self (stamp j (alert_events E self message status n)) = 0%nat.
Proof.
  unfold alert_events, delivery, stamp.
  destruct (webhook_url self) as [url|]; [|done].
  by destruct (post_at E n url message).
Qed.

Lemma sleeps_after_check c v w :
  sleeps self (out (after_check E self c v w)) = sleeps self (out w).
Proof.
  unfold after_check.
  destruct (alerts E self c v w); [|by destruct (breach self c v)].
  destruct (last_alert w !! key_of c);
    unfold after_alert, store, tick, after_send; cbn [out];
    by rewrite sleeps_app, sleeps_alert_events.
Qed.

Lemma reads_after_check c v w :
  reads (after_check E self c v w) = S (reads w).
Proof.
  unfold after_check.
  destruct (alerts E self c v w); [|by destruct (breach self c v)].
  by destruct (last_alert w !! key_of c).
Qed.

Lemma run_all_answered cs w :
  (forall c n, exists v, reading E c n = Got v) ->
  exists w', run_all E self cs w = Ret tt w' /\
             reads w' = (reads w + length cs)%nat /\
             sleeps self (out w') = sleeps self (out w).
Proof.
  intros Hans. revert w. induction cs as [|c cs IH]; intros w.
  - exists w. cbn. split; [done|]. split; [lia|done].
  - destruct (Hans c (reads w)) as [v Hv].
    unfold run_all in *. cbn. munfold.
    rewrite run_check_exact, Hv.
    destruct (IH (after_check E self c v w)) as (w' & -> & Hreads & Hsl).
    exists w'. split; [done|].
    rewrite Hreads, Hsl, sleeps_after_check.
    rewrite reads_after_check. cbn. split; [lia|done].
Qed.
End Counting.

(** *** The loop *)

Lemma length_rq_checks qs : length (rq_checks qs) = (3 * length qs)%nat.
Proof.
  unfold rq_checks. induction qs as [|q qs IH]; cbn; [done|].
  rewrite IH. lia.
Qed.

Lemma length_celery_checks qs :
  length (celery_checks qs) = (length qs + 1)%nat.
Proof. unfold celery_checks. by rewrite length_app, length_map. Qed.

(** X7.  With a check interval that [time.sleep] takes (not negative, and
    not beyond what the platform sleeps), and while Redis answers every
    call, the loop does not raise: after [n] rounds the RQ script has made
    three Redis calls per queue and round, the Celery script one per queue
    and one more per round, and each has slept [check_interval] seconds
    exactly [n] times. *)
Theorem X7_loop_calls_and_sleeps (E : Env) (self : Monitor) (n : nat)
    (queue_names : list string) (w : World) :
  0 <= check_interval self ->
  sleep_error E (check_interval self) = None ->
  (forall c k, exists v, reading E c k = Got v) ->
  (exists w', RQ.loop E self n queue_names w = Ret tt w' /\
              reads w' = (reads w + n * (3 * length queue_names))%nat /\
              sleeps self (out w') = (sleeps self (out w) + n)%nat)
  /\ (exists w', Celery.loop E self n queue_names w = Ret tt w' /\
                 reads w' = (reads w + n * (length queue_names + 1))%nat /\
                 sleeps self (out w') = (sleeps self (out w) + n)%nat).
Proof.
  intros Hpos Hsleep Hans. split; revert w; induction n as [|n IH]; intros w.
  - exists w. cbn. split; [done|]. split; lia.
  - destruct (run_all_answered E self (rq_checks queue_names) w Hans)
      as (w1 & Hrun & Hr1 & Hs1).
    destruct (IH (log (Sleep (check_interval self)) w1)) as (w' & Hloop & Hr & Hs).
    exists w'. cbn [RQ.loop]. munfold. rewrite RQ_cycle_run_all, Hrun.
    rewrite (sleep_slept E _ w1 Hpos Hsleep), Hloop. split; [done|].
    rewrite Hr, Hs. cbn [reads log out]. rewrite Hr1, length_rq_checks.
    split; [lia|].
    rewrite <- Hs1. unfold sleeps. cbn. rewrite bool_decide_true by done.
    cbn. lia.
  - exists w. cbn. split; [done|]. split; lia.
  - destruct (run_all_answered E self (celery_checks queue_names) w Hans)
      as (w1 & Hrun & Hr1 & Hs1).
    destruct (IH (log (Sleep (check_interval self)) w1)) as (w' & Hloop & Hr & Hs).
    exists w'. cbn [Celery.loop]. munfold. rewrite Celery_cycle_run_all, Hrun.
    rewrite (sleep_slept E _ w1 Hpos Hsleep), Hloop. split; [done|].
    rewrite Hr, Hs. cbn [reads log out]. rewrite Hr1, length_celery_checks.
    split; [lia|].
    rewrite <- Hs1. unfold sleeps. cbn. rewrite bool_decide_true by done.
    cbn. lia.
Qed.

Lemma X7_loop_calls_and_sleeps_witness :
  (exists w', RQ.loop backlog_env console_monitor 2 ["default"; "high"] init_world
              = Ret tt w' /\
              reads w' = (reads init_world + 2 * (3 * length ["default"; "high"]))%nat /\
              sleeps console_monitor (out w')
              = (sleeps console_monitor (out init_world) + 2)%nat)
  /\ (exists w', Celery.loop backlog_env console_monitor 2 ["default"; "high"]
                   init_world = Ret tt w' /\
                 reads w' = (reads init_world
                             + 2 * (length ["default"; "high"] + 1))%nat /\
                 sleeps console_monitor (out w')
                 = (sleeps console_monitor (out init_world) + 2)%nat).
Proof.
  apply (X7_loop_calls_and_sleeps backlog_env console_monitor 2
           ["default"; "high"] init_world).
  - cbn. lia.
  - reflexivity.
  - intros c k. destruct c; cbn; eexists; reflexivity.
Defined.

(** *** A check after an alert *)

(** X8.  After a check has alerted, the entry of its key is the clock
    reading made right after the alert; the same check run again, reading
    [v2], alerts again exactly when [v2] is a breach and the clock, at the
    cooldown test, reads more than the cooldown of its class after that
    entry. *)
Theorem X8_recheck_after_alert (E : Env) (self : Monitor) (c : check)
    (w : World) (v1 v2 : Z) :
  reading E c (reads w) = Got v1 ->
  alerts E self c v1 w = true ->
  let w1 := world_of (run_check E self c w) in
  let recorded := utcnow_at E (ticks w1 - 1) in
  last_alert w1 !! key_of c = Some recorded /\
  (reading E c (reads w1) = Got v2 ->
   (alerted w1 (world_of (run_check E self c w1)) <->
    breach self c v2 = true /\
    utcnow_at E (S (ticks w1)) - recorded > cooldown (class_of c))).
Proof.
  intros Hr1 Hal. cbn zeta.
  assert (Hentry : last_alert (world_of (run_check E self c w)) !! key_of c
                   = Some (utcnow_at E (ticks (world_of (run_check E self c w)) - 1))).
  { rewrite (run_check_world E self c w v1 Hr1). unfold after_check.
    rewrite Hal. destruct (last_alert w !! key_of c); cbn;
      rewrite lookup_insert_eq; do 2 f_equal; lia. }
  split; [exact Hentry|].
  intros Hr2. rewrite (run_check_alerted E self c _ v2 Hr2), Hentry. done.
Qed.

Lemma X8_recheck_after_alert_witness :
  let c := RQ_depth "default" in
  let w1 := world_of (run_check backlog_env console_monitor c init_world) in
  let recorded := utcnow_at backlog_env (ticks w1 - 1) in
  last_alert w1 !! key_of c = Some recorded /\
  (reading backlog_env c (reads w1) = Got 600 ->
   (alerted w1 (world_of (run_check backlog_env console_monitor c w1)) <->
    breach console_monitor c 600 = true /\
    utcnow_at backlog_env (S (ticks w1)) - recorded > cooldown (class_of c))).
Proof.
  apply (X8_recheck_after_alert backlog_env console_monitor
           (RQ_depth "default") init_world 600 600); reflexivity.
Defined.

(** *** Keys *)

Lemma length_append (s t : string) :
  String.length (s +:+ t) = (String.length s + String.length t)%nat.
Proof. induction s as [|a s IH]; simpl; [done|by f_equal]. Qed.

Lemma append_inj_r (s1 s2 t : string) : s1 +:+ t = s2 +:+ t -> s1 = s2.
Proof.
  revert s2. induction s1 as [|a s1 IH]; intros [|b s2] H; simpl in H.
  - done.
  - apply (f_equal String.length) in H. simpl in H.
    rewrite !length_append in H. simpl in H. lia.
  - apply (f_equal String.length) in H. simpl in H.
    rewrite !length_append in H. simpl in H. lia.
  - injection H as -> H. f_equal. by apply IH.
Qed.

(** X9.  Two different checks of one script have different keys of
    [last_alert], whatever the queue names are; so a check leaves the
    entry of every other check of its script as it was. *)
Theorem X9_checks_do_not_share_keys (E : Env) (self : Monitor)
    (c1 c2 : check) (w : World) :
  script_of c1 = script_of c2 ->
  c1 <> c2 ->
  key_of c1 <> key_of c2 /\
  last_alert (world_of (run_check E self c1 w)) !! key_of c2
  = last_alert w !! key_of c2.
Proof.
  intros Hs Hne.
  assert (Hk : key_of c1 <> key_of c2).
  { intros Hk. apply Hne. pose proof (key_of_class c1 c2 Hk) as Hc.
    destruct c1, c2; try discriminate Hs; try discriminate Hc; cbn in Hk;
      try done; f_equal; by eapply append_inj_r. }
  split; [exact Hk|].
  destruct (run_check_last_alert E self c1 w) as [->|[t ->]]; [done|].
  by rewrite lookup_insert_ne.
Qed.

Lemma X9_checks_do_not_share_keys_witness :
  key_of (RQ_workers "a:depth") <> key_of (RQ_depth "a:workers") /\
  last_alert (world_of (run_check trouble_env console_monitor
                          (RQ_workers "a:depth") init_world))
    !! key_of (RQ_depth "a:workers")
  = last_alert init_world !! key_of (RQ_depth "a:workers").
Proof.
  apply (X9_checks_do_not_share_keys trouble_env console_monitor
           (RQ_workers "a:depth") (RQ_depth "a:workers") init_world).
  - reflexivity.
  - discriminate.
Defined.

(** *** Whole runs *)

(** X10.  In every run of [monitor] from a fresh instance (with a check
    interval that is not negative, so that the loop goes on), whatever Redis,
    the clock and the webhook do, [last_alert] has entries only under the
    keys of the queues it was given (["q:depth"], ["q:failed"],
    ["q:workers"] for RQ; ["q:depth"] and ["workers"] for Celery), and
    every entry is a clock reading made earlier in the run. *)
Theorem X10_entries_of_monitored_queues (E : Env) (self : Monitor) (n : nat)
    (queue_names : list string) (k : string) (t : Z) :
  0 <= check_interval self ->
  (let w' := world_of (RQ.monitor E self n queue_names init_world) in
   last_alert w' !! k = Some t ->
   (exists q, q ∈ queue_names /\
      (k = q +:+ ":depth" \/ k = q +:+ ":failed" \/ k = q +:+ ":workers")) /\
   (exists i, (i < ticks w')%nat /\ t = utcnow_at E i))
  /\ (let w' := world_of (Celery.monitor E self n queue_names init_world) in
      last_alert w' !! k = Some t ->
      (k = "workers" \/ exists q, q ∈ queue_names /\ k = q +:+ ":depth") /\
      (exists i, (i < ticks w')%nat /\ t = utcnow_at E i)).
Proof.
  intros _. cbn zeta. split; intros Hl.
  - destruct (sound_entries _ _ _ _
                (Sound_RQ_monitor E self n queue_names init_world
                   (Sound_init E self _)) k t Hl) as [(c & Hc & ->) Ht].
    split; [|done].
    apply elem_of_rq_checks in Hc as (q & Hq & [->|[->| ->]]);
      exists q; cbn; auto.
  - destruct (sound_entries _ _ _ _
                (Sound_Celery_monitor E self n queue_names init_world
                   (Sound_init E self _)) k t Hl) as [(c & Hc & ->) Ht].
    split; [|done].
    apply elem_of_celery_checks in Hc as [->|(q & Hq & ->)]; cbn; eauto.
Qed.

Lemma X10_entries_of_monitored_queues_witness :
  let w' := world_of (RQ.monitor backlog_env console_monitor 1 ["default"]
                        init_world) in
  (exists q, q ∈ ["default"] /\
     ("default:depth" = q +:+ ":depth" \/ "default:depth" = q +:+ ":failed"
      \/ "default:depth" = q +:+ ":workers")) /\
  (exists i, (i < ticks w')%nat /\ 300000000 = utcnow_at backlog_env i).
Proof.
  assert (Hinterval : 0 <= check_interval console_monitor) by (cbn; lia).
  apply (proj1 (X10_entries_of_monitored_queues backlog_env console_monitor 1
                  ["default"] "default:depth" 300000000 Hinterval)).
  vm_compute. reflexivity.
Defined.

Lemma alert_over_limit (E : Env) (self : Monitor) cs w i s :
  Sound E self cs w ->
  (i, Alert s) ∈ out w ->
  (exists v, dict_get "depth" s = Some (VInt v) /\
             dict_get "threshold" s = Some (VInt (queue_depth_threshold self)) /\
             v >= queue_depth_threshold self /\
             dict_get "status" s = Some (VStr "alert"))
  \/ (exists v, dict_get "failed_count" s = Some (VInt v) /\ v > 0 /\
                dict_get "status" s = Some (VStr "warning") /\
                dict_get "depth" s = None)
  \/ (dict_get "workers" s = Some (VInt 0) /\
      dict_get "status" s = Some (VStr "critical") /\
      dict_get "depth" s = None).
Proof.
  intros HS Hin.
  destruct (sound_alerts _ _ _ _ HS i s Hin)
    as (c & v & ts & k & _ & -> & Hr & Hb).
  rewrite status_dict_status. unfold breach, status_of in *.
  destruct (class_of c) eqn:Hc.
  - left. exists v.
    destruct (status_dict_depth E self c v ts Hc) as [-> ->].
    case_bool_decide; [done|]. split; [done|]. split; [done|]. split; [lia|done].
  - right; left. exists v. rewrite status_dict_failed by done.
    apply bool_decide_eq_true in Hb.
    rewrite bool_decide_false by lia.
    split; [done|]. split; [lia|]. split; [done|].
    destruct c; try discriminate Hc; reflexivity.
  - right; right. rewrite status_dict_workers by done.
    pose proof (workers_reading_nonneg E c k v Hc Hr).
    case_bool_decide; [done|].
    replace v with 0 by lia. split; [done|]. split; [done|].
    destruct c; try discriminate Hc; reflexivity.
Qed.

(** X12.  Every alert a run of [monitor] sends (the check interval not
    being negative) carries a status that is
    not ["ok"], for a number over its limit: a depth at or above the
    threshold with status ["alert"], a failed-job count above zero with
    status ["warning"], or a worker count of zero with status
    ["critical"]. *)
Theorem X12_alerts_only_over_limit (E : Env) (self : Monitor) (n : nat)
    (queue_names : list string) (i : nat) (s : dict) :
  0 <= check_interval self ->
  (i, Alert s) ∈ out (world_of (RQ.monitor E self n queue_names init_world))
  \/ (i, Alert s)
       ∈ out (world_of (Celery.monitor E self n queue_names init_world)) ->
  (exists v, dict_get "depth" s = Some (VInt v) /\
             dict_get "threshold" s = Some (VInt (queue_depth_threshold self)) /\
             v >= queue_depth_threshold self /\
             dict_get "status" s = Some (VStr "alert"))
  \/ (exists v, dict_get "failed_count" s = Some (VInt v) /\ v > 0 /\
                dict_get "status" s = Some (VStr "warning"))
  \/ (dict_get "workers" s = Some (VInt 0) /\
      dict_get "status" s = Some (VStr "critical")).
Proof.
  intros _ [Hin|Hin].
  - destruct (alert_over_limit E self _ _ i s
                (Sound_RQ_monitor E self n queue_names init_world
                   (Sound_init E self _)) Hin)
      as [H|[(v & ? & ? & ? & _)|(? & ? & _)]]; eauto 10.
  - destruct (alert_over_limit E self _ _ i s
                (Sound_Celery_monitor E self n queue_names init_world
                   (Sound_init E self _)) Hin)
      as [H|[(v & ? & ? & ? & _)|(? & ? & _)]]; eauto 10.
Qed.

Lemma X12_alerts_only_over_limit_witness :
  let s := status_dict backlog_env console_monitor (RQ_depth "default") 600 0 in
  (exists v, dict_get "depth" s = Some (VInt v) /\
             dict_get "threshold" s
             = Some (VInt (queue_depth_threshold console_monitor)) /\
             v >= queue_depth_threshold console_monitor /\
             dict_get "status" s = Some (VStr "alert"))
  \/ (exists v, dict_get "failed_count" s = Some (VInt v) /\ v > 0 /\
                dict_get "status" s = Some (VStr "warning"))
  \/ (dict_get "workers" s = Some (VInt 0) /\
      dict_get "status" s = Some (VStr "critical")).
Proof.
  apply (X12_alerts_only_over_limit backlog_env console_monitor 1 ["default"]
           1%nat); [cbn; lia|].
  left. vm_compute. do 2 apply list_elem_of_further. apply list_elem_of_here.
Defined.

Lemma construct_webhook_url getenv webhook_arg threshold interval url :
  webhook_url (construct getenv webhook_arg threshold interval).1 = Some url ->
  url <> "" /\
  (webhook_arg = Some url \/
   ((webhook_arg = None \/ webhook_arg = Some "") /\ getenv = Some url)).
Proof.
  unfold webhook_url, construct, py_or. cbn. intros Hurl.
  destruct webhook_arg as [a|].
  - case_bool_decide as Ha.
    + subst a. destruct getenv as [g|]; [|done].
      case_bool_decide; [done|]. injection Hurl as ->. auto.
    + rewrite bool_decide_false in Hurl by done. injection Hurl as ->. auto.
  - destruct getenv as [g|]; [|done].
    case_bool_decide; [done|]. injection Hurl as ->. auto.
Qed.

(** X13.  A monitor built by [__init__] (with an interval that is not
    negative) posts only to a URL that is not
    empty, and that is the [alert_webhook] argument when that is a
    non-empty string, else the value of the environment variable
    [QUEUE_MONITOR_WEBHOOK]; with neither, no run ever posts. *)
Theorem X13_posts_go_to_the_webhook (E : Env) (getenv webhook_arg : option string)
    (threshold interval : Z) (n : nat) (queue_names : list string)
    (i : nat) (url message : string) :
  let self := (construct getenv webhook_arg threshold interval).1 in
  let w0 := (construct getenv webhook_arg threshold interval).2 in
  0 <= interval ->
  (i, Post url message) ∈ out (world_of (RQ.monitor E self n queue_names w0))
  \/ (i, Post url message)
       ∈ out (world_of (Celery.monitor E self n queue_names w0)) ->
  url <> "" /\
  (webhook_arg = Some url \/
   ((webhook_arg = None \/ webhook_arg = Some "") /\ getenv = Some url)).
Proof.
  cbn zeta. intros _ Hin.
  apply (construct_webhook_url getenv webhook_arg threshold interval).
  destruct Hin as [Hin|Hin].
  - exact (sound_posts _ _ _ _
             (Sound_RQ_monitor E _ n queue_names init_world
                (Sound_init E _ _)) i url message Hin).
  - exact (sound_posts _ _ _ _
             (Sound_Celery_monitor E _ n queue_names init_world
                (Sound_init E _ _)) i url message Hin).
Qed.

Lemma X13_posts_go_to_the_webhook_witness :
  "http://hooks.example/alert" <> "" /\
  (Some "" = Some "http://hooks.example/alert" \/
   ((Some "" = None \/ Some "" = Some "") /\
    Some "http://hooks.example/alert" = Some "http://hooks.example/alert")).
Proof.
  apply (X13_posts_go_to_the_webhook backlog_env
           (Some "http://hooks.example/alert") (Some "") 500 60 1 ["default"]
           1%nat "http://hooks.example/alert"
           "🚨 Queue 'default' depth: 600 (threshold: 500)"); [lia|].
  left. vm_compute.
  repeat (apply list_elem_of_here || apply list_elem_of_further).
Defined.

(** X14.  Run from the command line, either script monitors the queues
    named by its arguments, or ["default"], ["high"] and ["low"] when it
    has none; it posts only to the URL of [QUEUE_MONITOR_WEBHOOK]; and
    every depth alert it sends is for a depth of 500 or more. *)
Theorem X14_main_configuration (E : Env) (getenv : option string)
    (argv : list string) (n : nat) :
  rq_main E getenv argv n
  = RQ.monitor E {| alert_webhook := getenv; queue_depth_threshold := 500;
                    check_interval := 60 |} n
      (match argv with
       | _ :: q :: qs => q :: qs
       | _ => ["default"; "high"; "low"]
       end) init_world
  /\ celery_main E getenv argv n
     = Celery.monitor E {| alert_webhook := getenv; queue_depth_threshold := 500;
                           check_interval := 60 |} n
         (match argv with
          | _ :: q :: qs => q :: qs
          | _ => ["default"; "high"; "low"]
          end) init_world
  /\ (forall i url message,
        (i, Post url message) ∈ out (world_of (rq_main E getenv argv n))
        \/ (i, Post url message) ∈ out (world_of (celery_main E getenv argv n)) ->
        getenv = Some url /\ url <> "")
  /\ (forall i s v,
        (i, Alert s) ∈ out (world_of (rq_main E getenv argv n))
        \/ (i, Alert s) ∈ out (world_of (celery_main E getenv argv n)) ->
        dict_get "depth" s = Some (VInt v) -> v >= 500).
Proof.
  assert (Hq : argv_queues argv
               = match argv with
                 | _ :: q :: qs => q :: qs
                 | _ => ["default"; "high"; "low"]
                 end).
  { unfold argv_queues. by destruct argv as [|a [|q qs]]. }
  unfold rq_main, celery_main, construct. cbn [py_or]. rewrite <- Hq.
  set (self := {| alert_webhook := getenv; queue_depth_threshold := 500;
                  check_interval := 60 |}).
  pose proof (Sound_RQ_monitor E self n (argv_queues argv) init_world
                (Sound_init E self _)) as HR.
  pose proof (Sound_Celery_monitor E self n (argv_queues argv) init_world
                (Sound_init E self _)) as HC.
  split; [done|]. split; [done|]. split.
  - intros i url message Hin.
    assert (Hurl : webhook_url self = Some url).
    { destruct Hin as [Hin|Hin]; [exact (sound_posts _ _ _ _ HR _ _ _ Hin)|
                                  exact (sound_posts _ _ _ _ HC _ _ _ Hin)]. }
    destruct (construct_webhook_url getenv None 500 60 url Hurl)
      as [Hne [Hurl'|[_ Hurl']]]; [discriminate Hurl'|done].
  - intros i s v Hin Hd.
    assert (Hlim : (exists v, dict_get "depth" s = Some (VInt v) /\ v >= 500)
                   \/ dict_get "depth" s = None).
    { destruct Hin as [Hin|Hin];
        [destruct (alert_over_limit E self _ _ i s HR Hin)
           as [(v' & ? & _ & ? & _)|[(v' & _ & _ & _ & ?)|(_ & _ & ?)]]|
         destruct (alert_over_limit E self _ _ i s HC Hin)
           as [(v' & ? & _ & ? & _)|[(v' & _ & _ & _ & ?)|(_ & _ & ?)]]];
        eauto. }
    destruct Hlim as [(v' & Hd' & Hv)|Hnone]; [|congruence].
    rewrite Hd in Hd'. by injection Hd' as <-.
Qed.

Lemma X14_main_configuration_witness :
  Some "http://hooks.example/alert" = Some "http://hooks.example/alert" /\
  "http://hooks.example/alert" <> "".
Proof.
  apply (proj1 (proj2 (proj2 (X14_main_configuration backlog_env
           (Some "http://hooks.example/alert") ["monitor.py"; "jobs"] 1)))
           1%nat "http://hooks.example/alert"
           "🚨 Queue 'jobs' depth: 600 (threshold: 500)").
  left. vm_compute.
  repeat (apply list_elem_of_here || apply list_elem_of_further).
Defined.

(** *** Recorded times over a run *)

Section Later.
Context (E : Env) (self : Monitor).
Hypothesis clock_monotone : monotone_clock E.

Lemma not_earlier_same w w' : last_alert w' = last_alert w -> not_earlier w w'.
Proof. intros Heq k t Hl. exists t. rewrite Heq. split; [done|lia]. Qed.

Lemma not_earlier_trans w1 w2 w3 :
  not_earlier w1 w2 -> not_earlier w2 w3 -> not_earlier w1 w3.
Proof.
  intros H12 H23 k t Hl.
  destruct (H12 k t Hl) as (t2 & Hl2 & Hle2).
  destruct (H23 k t2 Hl2) as (t3 & Hl3 & Hle3).
  exists t3. split; [done|lia].
Qed.

Lemma not_earlier_after_alert cs c v ts w w0 :
  Sound E self cs w ->
  last_alert w0 = last_alert w -> (ticks w <= ticks w0)%nat ->
  not_earlier w (after_alert E self c v ts w0).
Proof.
  intros HS Hsame Hticks k t Hl. cbn. rewrite Hsame.
  destruct (decide (key_of c = k)) as [<-|Hne].
  - rewrite lookup_insert_eq. eexists; split; [done|].
    destruct (sound_entries _ _ _ _ HS _ _ Hl) as [_ (i & Hi & ->)].
    apply clock_monotone. lia.
  - rewrite lookup_insert_ne by done. exists t. split; [done|lia].
Qed.

Lemma not_earlier_run_check cs c w :
  Sound E self cs w -> not_earlier w (world_of (run_check E self c w)).
Proof.
  intros HS. rewrite run_check_exact.
  destruct (reading E c (reads w)) as [v|msg]; cbn;
    [|by apply not_earlier_same].
  unfold after_check.
  destruct (alerts E self c v w);
    [|destruct (breach self c v); by apply not_earlier_same].
  destruct (last_alert w !! key_of c);
    (eapply not_earlier_after_alert; [exact HS|done|cbn; lia]).
Qed.

Lemma not_earlier_run_all cs cs' w :
  cs' ⊆ cs -> Sound E self cs w ->
  not_earlier w (world_of (run_all E self cs' w)).
Proof.
  revert w. induction cs' as [|c cs' IH]; intros w Hsub HS; cbn.
  - by apply not_earlier_same.
  - munfold.
    assert (Hc : c ∈ cs) by (apply Hsub; by left).
    pose proof (not_earlier_run_check cs c w HS) as Hstep.
    pose proof (Sound_run_check E self cs c w Hc HS) as HS1.
    destruct (run_check E self c w) as [st w1|e w1]; cbn in *; [|done].
    eapply not_earlier_trans; [exact Hstep|].
    apply IH; [|done]. intros x Hx. apply Hsub. by right.
Qed.

Lemma not_earlier_RQ_loop n qs w :
  Sound E self (rq_checks qs) w ->
  not_earlier w (world_of (RQ.loop E self n qs w)).
Proof.
  revert w. induction n as [|n IH]; intros w HS; cbn.
  - by apply not_earlier_same.
  - munfold.
    pose proof (not_earlier_run_all (rq_checks qs) (rq_checks qs) w
                  (reflexivity _) HS) as Hstep.
    pose proof (Sound_run_all E self (rq_checks qs) (rq_checks qs) w
                  (reflexivity _) HS) as HS1.
    rewrite <- RQ_cycle_run_all in Hstep, HS1.
    destruct (RQ.cycle E self qs w) as [[] w1|e w1]; cbn in *; [|done].
    eapply not_earlier_trans; [exact Hstep|].
    destruct (sleep_cases E (check_interval self) w1) as [->|[e ->]];
      [|by apply not_earlier_same].
    eapply not_earlier_trans; [|apply IH; by apply Sound_log].
    by apply not_earlier_same.
Qed.

Lemma not_earlier_Celery_loop n qs w :
  Sound E self (celery_checks qs) w ->
  not_earlier w (world_of (Celery.loop E self n qs w)).
Proof.
  revert w. induction n as [|n IH]; intros w HS; cbn.
  - by apply not_earlier_same.
  - munfold.
    pose proof (not_earlier_run_all (celery_checks qs) (celery_checks qs) w
                  (reflexivity _) HS) as Hstep.
    pose proof (Sound_run_all E self (celery_checks qs) (celery_checks qs) w
                  (reflexivity _) HS) as HS1.
    rewrite <- Celery_cycle_run_all in Hstep, HS1.
    destruct (Celery.cycle E self qs w) as [[] w1|e w1]; cbn in *; [|done].
    eapply not_earlier_trans; [exact Hstep|].
    destruct (sleep_cases E (check_interval self) w1) as [->|[e ->]];
      [|by apply not_earlier_same].
    eapply not_earlier_trans; [|apply IH; by apply Sound_log].
    by apply not_earlier_same.
Qed.

Lemma RQ_loop_add n m qs w :
  world_of (RQ.loop E self (n + m) qs w)
  = match RQ.loop E self n qs w with
    | Ret _ w1 => world_of (RQ.loop E self m qs w1)
    | Raise _ w1 => w1
    end.
Proof.
  revert w. induction n as [|n IH]; intros w; cbn; [done|]. munfold.
  destruct (RQ.cycle E self qs w) as [[] w1|e w1]; [|done].
  destruct (sleep_cases E (check_interval self) w1) as [->|[e ->]]; [|done].
  apply IH.
Qed.

Lemma Celery_loop_add n m qs w :
  world_of (Celery.loop E self (n + m) qs w)
  = match Celery.loop E self n qs w with
    | Ret _ w1 => world_of (Celery.loop E self m qs w1)
    | Raise _ w1 => w1
    end.
Proof.
  revert w. induction n as [|n IH]; intros w; cbn; [done|]. munfold.
  destruct (Celery.cycle E self qs w) as [[] w1|e w1]; [|done].
  destruct (sleep_cases E (check_interval self) w1) as [->|[e ->]]; [|done].
  apply IH.
Qed.
End Later.

(** X11.  When the clock does not run backwards (and the check interval
    is not negative), entries of [last_alert]
    are never lost and never move back over a run of [monitor]: every
    entry there after [n] rounds is there after [n + m] rounds, with the
    same or a later time. *)
Theorem X11_entries_never_move_back (E : Env) (self : Monitor) (n m : nat)
    (queue_names : list string) :
  monotone_clock E ->
  0 <= check_interval self ->
  not_earlier (world_of (RQ.monitor E self n queue_names init_world))
              (world_of (RQ.monitor E self (n + m) queue_names init_world))
  /\ not_earlier (world_of (Celery.monitor E self n queue_names init_world))
                 (world_of (Celery.monitor E self (n + m) queue_names init_world)).
Proof.
  intros Hmono _. split.
  - unfold RQ.monitor, print, emit. munfold.
    set (w0 := log _ (log _ (log _ (log _ init_world)))).
    assert (HS0 : Sound E self (rq_checks queue_names) w0)
      by (unfold w0; repeat (apply Sound_log; [done|done|]); apply Sound_init).
    rewrite (RQ_loop_add E self n m).
    pose proof (Sound_RQ_loop E self n queue_names w0 HS0) as HS1.
    destruct (RQ.loop E self n queue_names w0) as [[] w1|e w1]; cbn in *.
    + by apply not_earlier_RQ_loop.
    + by apply not_earlier_same.
  - unfold Celery.monitor, print, emit. munfold.
    set (w0 := log _ (log _ (log _ (log _ init_world)))).
    assert (HS0 : Sound E self (celery_checks queue_names) w0)
      by (unfold w0; repeat (apply Sound_log; [done|done|]); apply Sound_init).
    rewrite (Celery_loop_add E self n m).
    pose proof (Sound_Celery_loop E self n queue_names w0 HS0) as HS1.
    destruct (Celery.loop E self n queue_names w0) as [[] w1|e w1]; cbn in *.
    + by apply not_earlier_Celery_loop.
    + by apply not_earlier_same.
Qed.

Lemma X11_entries_never_move_back_witness :
  not_earlier
    (world_of (RQ.monitor backlog_env console_monitor 1 ["default"] init_world))
    (world_of (RQ.monitor backlog_env console_monitor (1 + 1) ["default"]
                 init_world))
  /\ not_earlier
       (world_of (Celery.monitor backlog_env console_monitor 1 ["default"]
                    init_world))
       (world_of (Celery.monitor backlog_env console_monitor (1 + 1) ["default"]
                    init_world)).
Proof.
  apply (X11_entries_never_move_back backlog_env console_monitor 1 1 ["default"]).
  - intros i j Hij. cbn. lia.
  - cbn. lia.
Defined.

(** In the run of the witness the entry of ["default:depth"] moves from
    the reading after the first alert to the reading after the second. *)
Example entry_moves_forward :
  last_alert (world_of (RQ.monitor backlog_env console_monitor 1 ["default"]
                          init_world)) !! "default:depth" = Some 300000000
  /\ last_alert (world_of (RQ.monitor backlog_env console_monitor 2 ["default"]
                             init_world)) !! "default:depth" = Some 1800000000.
Proof. vm_compute. split; reflexivity. Qed.

(** *** The loop on no queue *)

(** X15.  Given no queue name, and an interval that [time.sleep] takes
    (not negative, and not beyond what the platform sleeps), the RQ
    [monitor] loop calls neither Redis nor the clock and sends nothing,
    even when Redis is down: each round is one sleep. *)
Theorem X15_rq_loop_without_queues (E : Env) (self : Monitor) (n : nat)
    (w : World) :
  0 <= check_interval self ->
  sleep_error E (check_interval self) = None ->
  RQ.loop E self n [] w
  = Ret tt {| last_alert := last_alert w; ticks := ticks w; reads := reads w;
              posts := posts w;
              out := replicate n (ticks w, Sleep (check_interval self))
                       ++ out w |}.
Proof.
  intros Hpos Hsleep. revert w. induction n as [|n IH]; intros w.
  - by destruct w.
  - cbn [RQ.loop]. munfold. unfold RQ.cycle. cbn [for_each]. munfold.
    rewrite (sleep_slept E _ w Hpos Hsleep), IH. cbn. do 2 f_equal.
    change ((ticks w, Sleep (check_interval self)) :: out w)
      with ([(ticks w, Sleep (check_interval self))] ++ out w).
    rewrite app_assoc. f_equal.
    clear IH. induction n as [|n IHn]; cbn; [done|]. by rewrite IHn.
Qed.

Lemma X15_rq_loop_without_queues_witness :
  RQ.loop redis_down_env console_monitor 2 [] init_world
  = Ret tt {| last_alert := last_alert init_world; ticks := ticks init_world;
              reads := reads init_world; posts := posts init_world;
              out := replicate 2 (ticks init_world,
                                  Sleep (check_interval console_monitor))
                       ++ out init_world |}.
Proof.
  apply (X15_rq_loop_without_queues redis_down_env console_monitor 2 init_world).
  - cbn. lia.
  - reflexivity.
Defined.
